(** * Row-level security of the judicial case schema

    A shallow embedding of [supabase/migrations]: the eight tables, their
    declared constraints, the fifteen row-level-security policies and the two
    SQL functions, followed by the access-control properties of the schema.

    Conventions of the embedding.
    - A table is the list of its rows, in insertion order; a nullable column
      is an [option]; a [NOT NULL] column is a plain value.
    - SQL conditions are three-valued: [sql_bool] is [option bool], with
      [None] for NULL.  A policy admits a row only when its condition is
      [Some true].
    - A sub-select inside a policy runs under the caller's own row security.
      PostgreSQL expands the policies of every table a statement or a policy
      reads before it runs anything, and fails with [infinite recursion
      detected in policy] when the policies of a table are reached from
      inside their own expansion; [fire] and [expand_policies] below follow
      that expansion.  Where it succeeds the sub-selects read [user_profiles]
      only, under a policy that admits the very rows they ask for
      ([id = auth.uid()]), so a condition is then evaluated over the stored
      rows.
    - Table and function privileges are those of a Supabase project: every
      role may issue every statement and call every function, and row
      security decides what the statement reaches.
    - Statements are plain: no [RETURNING], no [ON CONFLICT].
    - [gen_random_uuid()] and [now()] are inputs of the statement that uses
      them.
    - [auth.users] belongs to the authentication service; the migration
      references its [id] column and hangs a trigger on it.  It is kept as
      the list of its ids. *)

From Stdlib Require Import List NArith ZArith String Bool Lia.
Import ListNotations.

Set Implicit Arguments.

(** ** Column types *)

Definition uuid := N.
Definition timestamptz := N.
Definition text := string.
Definition jsonb := string.

(** [CREATE TYPE ... AS ENUM] *)
Inductive user_role := judge | clerk | trainee.
Inductive case_status := open | in_progress | under_review | closed.
Inductive case_priority := low | medium | high | urgent.
Inductive circle_role := primary | collaborating | consulting.

Definition user_role_eqb (a b : user_role) : bool :=
  match a, b with
  | judge, judge | clerk, clerk | trainee, trainee => true
  | _, _ => false
  end.

(** The value a column takes under a [SET] list: the new one if the column
    is named, the old one otherwise. *)
Definition or_keep {A : Type} (v : option A) (old : A) : A :=
  match v with
  | Some x => x
  | None => old
  end.

(** ** Tables *)

Module judicial_circles.
Record row := {
  id : uuid;
  name : text;
  description : option text;
  created_at : option timestamptz
}.

(** The [SET] list of an [UPDATE]: a new value for each column it names. *)
Record assignment := {
  set_id : option uuid;
  set_name : option text;
  set_description : option (option text);
  set_created_at : option (option timestamptz)
}.

Definition assign (a : assignment) (r : row) : row :=
  {| id := or_keep (set_id a) (id r);
     name := or_keep (set_name a) (name r);
     description := or_keep (set_description a) (description r);
     created_at := or_keep (set_created_at a) (created_at r) |}.
End judicial_circles.

Module user_profiles.
Record row := {
  id : uuid;
  full_name : text;
  role : user_role;
  circle_id : option uuid;
  employee_id : text;
  created_at : option timestamptz
}.

(** The [SET] list of an [UPDATE]: a new value for each column it names. *)
Record assignment := {
  set_id : option uuid;
  set_full_name : option text;
  set_role : option user_role;
  set_circle_id : option (option uuid);
  set_employee_id : option text;
  set_created_at : option (option timestamptz)
}.

Definition assign (a : assignment) (r : row) : row :=
  {| id := or_keep (set_id a) (id r);
     full_name := or_keep (set_full_name a) (full_name r);
     role := or_keep (set_role a) (role r);
     circle_id := or_keep (set_circle_id a) (circle_id r);
     employee_id := or_keep (set_employee_id a) (employee_id r);
     created_at := or_keep (set_created_at a) (created_at r) |}.
End user_profiles.

Module cases.
Record row := {
  id : uuid;
  case_number : text;
  title : text;
  description : option text;
  status : case_status;
  priority : case_priority;
  primary_circle_id : uuid;
  created_by : uuid;
  assigned_judge : option uuid;
  created_at : option timestamptz;
  updated_at : option timestamptz
}.

(** The [SET] list of an [UPDATE]: a new value for each column it names. *)
Record assignment := {
  set_id : option uuid;
  set_case_number : option text;
  set_title : option text;
  set_description : option (option text);
  set_status : option case_status;
  set_priority : option case_priority;
  set_primary_circle_id : option uuid;
  set_created_by : option uuid;
  set_assigned_judge : option (option uuid);
  set_created_at : option (option timestamptz);
  set_updated_at : option (option timestamptz)
}.

Definition assign (a : assignment) (r : row) : row :=
  {| id := or_keep (set_id a) (id r);
     case_number := or_keep (set_case_number a) (case_number r);
     title := or_keep (set_title a) (title r);
     description := or_keep (set_description a) (description r);
     status := or_keep (set_status a) (status r);
     priority := or_keep (set_priority a) (priority r);
     primary_circle_id := or_keep (set_primary_circle_id a) (primary_circle_id r);
     created_by := or_keep (set_created_by a) (created_by r);
     assigned_judge := or_keep (set_assigned_judge a) (assigned_judge r);
     created_at := or_keep (set_created_at a) (created_at r);
     updated_at := or_keep (set_updated_at a) (updated_at r) |}.
End cases.

Module case_circles.
Record row := {
  id : uuid;
  case_id : uuid;
  circle_id : uuid;
  role : circle_role;
  added_at : option timestamptz;
  added_by : uuid
}.

(** The [SET] list of an [UPDATE]: a new value for each column it names. *)
Record assignment := {
  set_id : option uuid;
  set_case_id : option uuid;
  set_circle_id : option uuid;
  set_role : option circle_role;
  set_added_at : option (option timestamptz);
  set_added_by : option uuid
}.

Definition assign (a : assignment) (r : row) : row :=
  {| id := or_keep (set_id a) (id r);
     case_id := or_keep (set_case_id a) (case_id r);
     circle_id := or_keep (set_circle_id a) (circle_id r);
     role := or_keep (set_role a) (role r);
     added_at := or_keep (set_added_at a) (added_at r);
     added_by := or_keep (set_added_by a) (added_by r) |}.
End case_circles.

Module case_threads.
Record row := {
  id : uuid;
  case_id : uuid;
  title : text;
  created_by : uuid;
  created_at : option timestamptz
}.

(** The [SET] list of an [UPDATE]: a new value for each column it names. *)
Record assignment := {
  set_id : option uuid;
  set_case_id : option uuid;
  set_title : option text;
  set_created_by : option uuid;
  set_created_at : option (option timestamptz)
}.

Definition assign (a : assignment) (r : row) : row :=
  {| id := or_keep (set_id a) (id r);
     case_id := or_keep (set_case_id a) (case_id r);
     title := or_keep (set_title a) (title r);
     created_by := or_keep (set_created_by a) (created_by r);
     created_at := or_keep (set_created_at a) (created_at r) |}.
End case_threads.

Module case_messages.
Record row := {
  id : uuid;
  thread_id : uuid;
  content : text;
  sender_id : uuid;
  created_at : option timestamptz;
  edited_at : option timestamptz
}.

(** The [SET] list of an [UPDATE]: a new value for each column it names. *)
Record assignment := {
  set_id : option uuid;
  set_thread_id : option uuid;
  set_content : option text;
  set_sender_id : option uuid;
  set_created_at : option (option timestamptz);
  set_edited_at : option (option timestamptz)
}.

Definition assign (a : assignment) (r : row) : row :=
  {| id := or_keep (set_id a) (id r);
     thread_id := or_keep (set_thread_id a) (thread_id r);
     content := or_keep (set_content a) (content r);
     sender_id := or_keep (set_sender_id a) (sender_id r);
     created_at := or_keep (set_created_at a) (created_at r);
     edited_at := or_keep (set_edited_at a) (edited_at r) |}.
End case_messages.

Module case_documents.
Record row := {
  id : uuid;
  case_id : uuid;
  file_name : text;
  file_path : text;
  file_type : text;
  file_size : Z;
  ocr_content : option text;
  uploaded_by : uuid;
  uploaded_at : option timestamptz
}.

(** The [SET] list of an [UPDATE]: a new value for each column it names. *)
Record assignment := {
  set_id : option uuid;
  set_case_id : option uuid;
  set_file_name : option text;
  set_file_path : option text;
  set_file_type : option text;
  set_file_size : option Z;
  set_ocr_content : option (option text);
  set_uploaded_by : option uuid;
  set_uploaded_at : option (option timestamptz)
}.

Definition assign (a : assignment) (r : row) : row :=
  {| id := or_keep (set_id a) (id r);
     case_id := or_keep (set_case_id a) (case_id r);
     file_name := or_keep (set_file_name a) (file_name r);
     file_path := or_keep (set_file_path a) (file_path r);
     file_type := or_keep (set_file_type a) (file_type r);
     file_size := or_keep (set_file_size a) (file_size r);
     ocr_content := or_keep (set_ocr_content a) (ocr_content r);
     uploaded_by := or_keep (set_uploaded_by a) (uploaded_by r);
     uploaded_at := or_keep (set_uploaded_at a) (uploaded_at r) |}.
End case_documents.

Module audit_logs.
Record row := {
  id : uuid;
  user_id : option uuid;
  action : text;
  resource_type : text;
  resource_id : option uuid;
  details : option jsonb;
  ip_address : option text;
  user_agent : option text;
  created_at : option timestamptz
}.

(** The [SET] list of an [UPDATE]: a new value for each column it names. *)
Record assignment := {
  set_id : option uuid;
  set_user_id : option (option uuid);
  set_action : option text;
  set_resource_type : option text;
  set_resource_id : option (option uuid);
  set_details : option (option jsonb);
  set_ip_address : option (option text);
  set_user_agent : option (option text);
  set_created_at : option (option timestamptz)
}.

Definition assign (a : assignment) (r : row) : row :=
  {| id := or_keep (set_id a) (id r);
     user_id := or_keep (set_user_id a) (user_id r);
     action := or_keep (set_action a) (action r);
     resource_type := or_keep (set_resource_type a) (resource_type r);
     resource_id := or_keep (set_resource_id a) (resource_id r);
     details := or_keep (set_details a) (details r);
     ip_address := or_keep (set_ip_address a) (ip_address r);
     user_agent := or_keep (set_user_agent a) (user_agent r);
     created_at := or_keep (set_created_at a) (created_at r) |}.
End audit_logs.
(** The database: the ids of [auth.users] and one list of rows per table. *)
Record db := {
  auth_users : list uuid;
  judicial_circles : list judicial_circles.row;
  user_profiles : list user_profiles.row;
  cases : list cases.row;
  case_circles : list case_circles.row;
  case_threads : list case_threads.row;
  case_messages : list case_messages.row;
  case_documents : list case_documents.row;
  audit_logs : list audit_logs.row
}.

Inductive table :=
| t_judicial_circles
| t_user_profiles
| t_cases
| t_case_circles
| t_case_threads
| t_case_messages
| t_case_documents
| t_audit_logs.

Definition table_eqb (a b : table) : bool :=
  match a, b with
  | t_judicial_circles, t_judicial_circles
  | t_user_profiles, t_user_profiles
  | t_cases, t_cases
  | t_case_circles, t_case_circles
  | t_case_threads, t_case_threads
  | t_case_messages, t_case_messages
  | t_case_documents, t_case_documents
  | t_audit_logs, t_audit_logs => true
  | _, _ => false
  end.

Definition row_of (t : table) : Type :=
  match t with
  | t_judicial_circles => judicial_circles.row
  | t_user_profiles => user_profiles.row
  | t_cases => cases.row
  | t_case_circles => case_circles.row
  | t_case_threads => case_threads.row
  | t_case_messages => case_messages.row
  | t_case_documents => case_documents.row
  | t_audit_logs => audit_logs.row
  end.

Definition assignment_of (t : table) : Type :=
  match t with
  | t_judicial_circles => judicial_circles.assignment
  | t_user_profiles => user_profiles.assignment
  | t_cases => cases.assignment
  | t_case_circles => case_circles.assignment
  | t_case_threads => case_threads.assignment
  | t_case_messages => case_messages.assignment
  | t_case_documents => case_documents.assignment
  | t_audit_logs => audit_logs.assignment
  end.

Definition assign (t : table) : assignment_of t -> row_of t -> row_of t :=
  match t with
  | t_judicial_circles => judicial_circles.assign
  | t_user_profiles => user_profiles.assign
  | t_cases => cases.assign
  | t_case_circles => case_circles.assign
  | t_case_threads => case_threads.assign
  | t_case_messages => case_messages.assign
  | t_case_documents => case_documents.assign
  | t_audit_logs => audit_logs.assign
  end.

Definition rows (t : table) : db -> list (row_of t) :=
  match t with
  | t_judicial_circles => judicial_circles
  | t_user_profiles => user_profiles
  | t_cases => cases
  | t_case_circles => case_circles
  | t_case_threads => case_threads
  | t_case_messages => case_messages
  | t_case_documents => case_documents
  | t_audit_logs => audit_logs
  end.

Definition set_rows (t : table) : list (row_of t) -> db -> db :=
  match t with
  | t_judicial_circles => fun l d =>
      Build_db (auth_users d) l (user_profiles d) (cases d) (case_circles d)
               (case_threads d) (case_messages d) (case_documents d) (audit_logs d)
  | t_user_profiles => fun l d =>
      Build_db (auth_users d) (judicial_circles d) l (cases d) (case_circles d)
               (case_threads d) (case_messages d) (case_documents d) (audit_logs d)
  | t_cases => fun l d =>
      Build_db (auth_users d) (judicial_circles d) (user_profiles d) l
               (case_circles d) (case_threads d) (case_messages d)
               (case_documents d) (audit_logs d)
  | t_case_circles => fun l d =>
      Build_db (auth_users d) (judicial_circles d) (user_profiles d) (cases d) l
               (case_threads d) (case_messages d) (case_documents d) (audit_logs d)
  | t_case_threads => fun l d =>
      Build_db (auth_users d) (judicial_circles d) (user_profiles d) (cases d)
               (case_circles d) l (case_messages d) (case_documents d) (audit_logs d)
  | t_case_messages => fun l d =>
      Build_db (auth_users d) (judicial_circles d) (user_profiles d) (cases d)
               (case_circles d) (case_threads d) l (case_documents d) (audit_logs d)
  | t_case_documents => fun l d =>
      Build_db (auth_users d) (judicial_circles d) (user_profiles d) (cases d)
               (case_circles d) (case_threads d) (case_messages d) l (audit_logs d)
  | t_audit_logs => fun l d =>
      Build_db (auth_users d) (judicial_circles d) (user_profiles d) (cases d)
               (case_circles d) (case_threads d) (case_messages d)
               (case_documents d) l
  end.

(** [INSERT INTO auth.users], which the authentication service makes at
    sign-up. *)
Definition add_user (u : uuid) (d : db) : db :=
  Build_db (auth_users d ++ [u]) (judicial_circles d) (user_profiles d) (cases d)
           (case_circles d) (case_threads d) (case_messages d)
           (case_documents d) (audit_logs d).

(** ** Three-valued SQL conditions *)

Definition sql_bool := option bool.

(** A [USING] or [WITH CHECK] or [WHERE] condition holds only when it is
    true; NULL counts as not holding. *)
Definition sql_true (b : sql_bool) : bool :=
  match b with Some true => true | _ => false end.

Definition sql_or (a b : sql_bool) : sql_bool :=
  match a, b with
  | Some true, _ | _, Some true => Some true
  | Some false, Some false => Some false
  | _, _ => None
  end.

Definition sql_and (a b : sql_bool) : sql_bool :=
  match a, b with
  | Some false, _ | _, Some false => Some false
  | Some true, Some true => Some true
  | _, _ => None
  end.

(** [a = b] on nullable uuids. *)
Definition sql_eq (a b : option uuid) : sql_bool :=
  match a, b with
  | Some x, Some y => Some (N.eqb x y)
  | _, _ => None
  end.

(** [x IN (SELECT ...)]: the disjunction of [x = y] over the selected
    values. *)
Definition sql_in (x : option uuid) (l : list (option uuid)) : sql_bool :=
  fold_right (fun y acc => sql_or (sql_eq x y) acc) (Some false) l.

(** [role IN ('judge', 'clerk')] and [role = 'judge'] on the [NOT NULL]
    enum column. *)
Definition role_in (r : user_role) (l : list user_role) : sql_bool :=
  Some (existsb (user_role_eqb r) l).

Definition role_eq (r x : user_role) : sql_bool :=
  Some (user_role_eqb r x).

(** [SELECT ... FROM l WHERE cond] keeps the rows where [cond] is true. *)
Definition sql_where {R : Type} (cond : R -> sql_bool) (l : list R) : list R :=
  filter (fun r => sql_true (cond r)) l.

(** [EXISTS (SELECT 1 FROM ...)] *)
Definition sql_exists {R : Type} (l : list R) : sql_bool :=
  Some (match l with [] => false | _ :: _ => true end).

(** ** Sessions

    A statement runs under a database role and carries the caller's token.
    [auth.uid()] is the subject of that token, NULL without one.  The
    policies of this migration are all granted [TO authenticated].  The
    role that ran the migration owns the tables; no table is under [FORCE
    ROW LEVEL SECURITY], so row security does not apply to it, and the
    [SECURITY DEFINER] functions run as that role. *)

Inductive pg_role := anon | authenticated | table_owner.

Definition pg_role_eqb (a b : pg_role) : bool :=
  match a, b with
  | anon, anon | authenticated, authenticated | table_owner, table_owner => true
  | _, _ => false
  end.

Record session := {
  current_user : pg_role;
  jwt_sub : option uuid
}.

Definition auth_uid (s : session) : option uuid := jwt_sub s.

Definition bypass_rls (s : session) : bool :=
  pg_role_eqb (current_user s) table_owner.

(** Inside a [SECURITY DEFINER] function the current role is the owner of
    the function; the caller's token is unchanged. *)
Definition security_definer (s : session) : session :=
  {| current_user := table_owner; jwt_sub := jwt_sub s |}.

(** ** Policies *)

Inductive command := Select | Insert | Update | Delete.

Definition command_eqb (a b : command) : bool :=
  match a, b with
  | Select, Select | Insert, Insert | Update, Update | Delete, Delete => true
  | _, _ => false
  end.

(** A sub-select of a condition: the table it reads and the sub-selects of
    its own [WHERE] clause, in the order of the text. *)
#[local] Unset Elimination Schemes.
Inductive subselect :=
| FROM (rel : table) (where_ : list subselect).
#[local] Set Elimination Schemes.

(** One [CREATE POLICY]: its name, [FOR] command, [TO] role, [USING]
    condition and [WITH CHECK] condition, and the sub-selects those
    conditions contain.  Conditions read the database, [auth.uid()] and the
    row at hand. *)
Record policy (R : Type) := {
  polname : string;
  polcmd : command;
  polrole : pg_role;
  polqual : option (db -> option uuid -> R -> sql_bool);
  polwithcheck : option (db -> option uuid -> R -> sql_bool);
  polsubselects : list subselect
}.

(** The condition of each policy, as a function of the database, of
    [auth.uid()] and of the row.  A condition is evaluated once the policies
    of the statement have been expanded; a sub-select is written here over
    the stored rows of the table it reads, and the policies it falls under
    are those the expansion walks ([polsubselects], [fire]). *)

(** [SELECT circle_id FROM user_profiles WHERE id = auth.uid()] *)
Definition caller_circles (d : db) (uid : option uuid) : list (option uuid) :=
  map user_profiles.circle_id
      (sql_where (fun p => sql_eq (Some (user_profiles.id p)) uid)
                 (user_profiles d)).

(** [SELECT circle_id FROM user_profiles
     WHERE id = auth.uid() AND role IN ('judge', 'clerk')] *)
Definition caller_circles_as_judge_or_clerk (d : db) (uid : option uuid)
  : list (option uuid) :=
  map user_profiles.circle_id
      (sql_where (fun p => sql_and (sql_eq (Some (user_profiles.id p)) uid)
                                   (role_in (user_profiles.role p) [judge; clerk]))
                 (user_profiles d)).

(** [id IN (SELECT circle_id FROM user_profiles WHERE id = auth.uid())] *)
Definition judicial_circles_select_qual (d : db) (uid : option uuid)
           (c : judicial_circles.row) : sql_bool :=
  sql_in (Some (judicial_circles.id c)) (caller_circles d uid).

(** [id = auth.uid()], the condition of both policies of [user_profiles]. *)
Definition user_profiles_own_qual (d : db) (uid : option uuid)
           (p : user_profiles.row) : sql_bool :=
  sql_eq (Some (user_profiles.id p)) uid.

(** [SELECT case_id FROM case_circles
     WHERE circle_id IN (SELECT circle_id FROM user_profiles
                         WHERE id = auth.uid())] *)
Definition collaborating_case_ids (d : db) (uid : option uuid)
  : list (option uuid) :=
  map (fun l => Some (case_circles.case_id l))
      (sql_where (fun l => sql_in (Some (case_circles.circle_id l))
                                  (caller_circles d uid))
                 (case_circles d)).

(** [primary_circle_id IN (SELECT circle_id FROM user_profiles
                           WHERE id = auth.uid())
     OR id IN (SELECT case_id FROM case_circles WHERE ...)] *)
Definition cases_select_qual (d : db) (uid : option uuid) (c : cases.row)
  : sql_bool :=
  sql_or (sql_in (Some (cases.primary_circle_id c)) (caller_circles d uid))
         (sql_in (Some (cases.id c)) (collaborating_case_ids d uid)).

(** [EXISTS (SELECT 1 FROM user_profiles
             WHERE id = auth.uid() AND role IN ('judge', 'clerk'))] *)
Definition cases_insert_check (d : db) (uid : option uuid) (_ : cases.row)
  : sql_bool :=
  sql_exists
    (sql_where (fun p => sql_and (sql_eq (Some (user_profiles.id p)) uid)
                                 (role_in (user_profiles.role p) [judge; clerk]))
               (user_profiles d)).

(** [primary_circle_id IN (SELECT circle_id FROM user_profiles
      WHERE id = auth.uid() AND role IN ('judge', 'clerk'))] *)
Definition cases_update_qual (d : db) (uid : option uuid) (c : cases.row)
  : sql_bool :=
  sql_in (Some (cases.primary_circle_id c))
         (caller_circles_as_judge_or_clerk d uid).

(** [SELECT id FROM cases WHERE primary_circle_id IN (...) OR id IN (...)],
    the sub-select that the policies of the tables below [cases] repeat. *)
Definition accessible_case_ids (d : db) (uid : option uuid)
  : list (option uuid) :=
  map (fun c => Some (cases.id c)) (sql_where (cases_select_qual d uid) (cases d)).

(** [case_id IN (SELECT id FROM cases WHERE ...)] *)
Definition case_circles_select_qual (d : db) (uid : option uuid)
           (l : case_circles.row) : sql_bool :=
  sql_in (Some (case_circles.case_id l)) (accessible_case_ids d uid).

(** [case_id IN (SELECT id FROM cases WHERE ...)], the condition of both
    policies of [case_threads]. *)
Definition case_threads_qual (d : db) (uid : option uuid)
           (t : case_threads.row) : sql_bool :=
  sql_in (Some (case_threads.case_id t)) (accessible_case_ids d uid).

(** [SELECT id FROM case_threads WHERE case_id IN (SELECT id FROM cases ...)] *)
Definition accessible_thread_ids (d : db) (uid : option uuid)
  : list (option uuid) :=
  map (fun t => Some (case_threads.id t))
      (sql_where (case_threads_qual d uid) (case_threads d)).

(** [thread_id IN (SELECT id FROM case_threads WHERE case_id IN (...))], the
    condition of both policies of [case_messages]. *)
Definition case_messages_qual (d : db) (uid : option uuid)
           (m : case_messages.row) : sql_bool :=
  sql_in (Some (case_messages.thread_id m)) (accessible_thread_ids d uid).

(** [case_id IN (SELECT id FROM cases WHERE ...)], the condition of both
    policies of [case_documents]. *)
Definition case_documents_qual (d : db) (uid : option uuid)
           (x : case_documents.row) : sql_bool :=
  sql_in (Some (case_documents.case_id x)) (accessible_case_ids d uid).

(** [EXISTS (SELECT 1 FROM user_profiles
             WHERE id = auth.uid() AND role = 'judge')] *)
Definition audit_logs_select_qual (d : db) (uid : option uuid)
           (_ : audit_logs.row) : sql_bool :=
  sql_exists
    (sql_where (fun p => sql_and (sql_eq (Some (user_profiles.id p)) uid)
                                 (role_eq (user_profiles.role p) judge))
               (user_profiles d)).

(** [WITH CHECK (true)] *)
Definition audit_logs_insert_check (d : db) (uid : option uuid)
           (_ : audit_logs.row) : sql_bool :=
  Some true.

(** The sub-selects of the conditions above.
    - [SELECT ... FROM user_profiles WHERE id = auth.uid() ...]
    - [SELECT case_id FROM case_circles WHERE circle_id IN (SELECT ... FROM
      user_profiles ...)]
    - [SELECT id FROM cases WHERE primary_circle_id IN (SELECT ... FROM
      user_profiles ...) OR id IN (SELECT case_id FROM case_circles ...)]
    - [SELECT id FROM case_threads WHERE case_id IN (SELECT id FROM cases
      ...)] *)
Definition from_user_profiles : subselect := FROM t_user_profiles [].

Definition from_case_circles : subselect :=
  FROM t_case_circles [from_user_profiles].

Definition from_cases : subselect :=
  FROM t_cases [from_user_profiles; from_case_circles].

Definition from_case_threads : subselect := FROM t_case_threads [from_cases].

Definition using_only {R} (n : string) (c : command)
           (q : db -> option uuid -> R -> sql_bool) (subs : list subselect)
  : policy R :=
  {| polname := n; polcmd := c; polrole := authenticated;
     polqual := Some q; polwithcheck := None; polsubselects := subs |}.

Definition check_only {R} (n : string) (c : command)
           (q : db -> option uuid -> R -> sql_bool) (subs : list subselect)
  : policy R :=
  {| polname := n; polcmd := c; polrole := authenticated;
     polqual := None; polwithcheck := Some q; polsubselects := subs |}.

(** The policies of each table, in the order of the migration. *)
Definition policies (t : table) : list (policy (row_of t)) :=
  match t return list (policy (row_of t)) with
  | t_judicial_circles =>
      [ using_only "Users can view circles they belong to" Select
                   judicial_circles_select_qual [from_user_profiles] ]
  | t_user_profiles =>
      [ using_only "Users can view their own profile" Select
                   user_profiles_own_qual [];
        using_only "Users can update their own profile" Update
                   user_profiles_own_qual [] ]
  | t_cases =>
      [ using_only "Users can view cases in their circle or collaborating circles"
                   Select cases_select_qual
                   [from_user_profiles; from_case_circles];
        check_only "Judges and clerks can create cases" Insert
                   cases_insert_check [from_user_profiles];
        using_only "Judges and clerks can update cases in their circle" Update
                   cases_update_qual [from_user_profiles] ]
  | t_case_circles =>
      [ using_only "Users can view case circles for accessible cases" Select
                   case_circles_select_qual [from_cases] ]
  | t_case_threads =>
      [ using_only "Users can view threads for accessible cases" Select
                   case_threads_qual [from_cases];
        check_only "Users can create threads for accessible cases" Insert
                   case_threads_qual [from_cases] ]
  | t_case_messages =>
      [ using_only "Users can view messages in accessible threads" Select
                   case_messages_qual [from_case_threads];
        check_only "Users can send messages in accessible threads" Insert
                   case_messages_qual [from_case_threads] ]
  | t_case_documents =>
      [ using_only "Users can view documents for accessible cases" Select
                   case_documents_qual [from_cases];
        check_only "Users can upload documents to accessible cases" Insert
                   case_documents_qual [from_cases] ]
  | t_audit_logs =>
      [ using_only "Judges can view all audit logs in their circle" Select
                   audit_logs_select_qual [from_user_profiles];
        check_only "System can insert audit logs" Insert
                   audit_logs_insert_check [] ]
  end.

(** [ALTER TABLE ... ENABLE ROW LEVEL SECURITY], on every table. *)
Definition row_security (t : table) : bool := true.

(** ** Row security as PostgreSQL applies it

    The policies that apply to a command are those declared for it and
    granted to the current role; they are combined with OR.  With row
    security enabled and no applicable policy, no row qualifies. *)

Definition applies {R} (c : command) (s : session) (p : policy R) : bool :=
  command_eqb (polcmd p) c && pg_role_eqb (polrole p) (current_user s).

(** *** Expanding the policies

    Before a statement runs, the rewriter adds to every table it reads or
    writes the conditions of the policies that apply, and then does the
    same inside the sub-selects of those conditions.  Within a sub-select it
    first descends into the sub-selects of the [WHERE] clause and only then
    adds the policies of the table read.  While the policies of a table are
    being expanded the table is active, and reaching its policies again is
    the error [infinite recursion detected in policy for relation]. *)

Inductive rewriting :=
| Expanded
| Recursive (rel : table)
| Unfinished.

(** The first failure met, in the order of the walk. *)
Fixpoint first_failure (l : list rewriting) : rewriting :=
  match l with
  | [] => Expanded
  | Expanded :: l' => first_failure l'
  | r :: _ => r
  end.

(** The sub-selects that reach a table through the policies of the commands
    [cs]: none for a role exempt from row security. *)
Definition subselects_of (cs : list command) (s : session) (t : table)
  : list subselect :=
  if negb (row_security t) || bypass_rls s then []
  else flat_map (fun c => flat_map (@polsubselects _)
                                   (filter (applies c s) (policies t))) cs.

(** Adding the policies of [t]: nothing to walk when they hold no
    sub-select; otherwise [t] must not be active already, and becomes so
    while [fire] walks them. *)
Definition add_policies (fire : list table -> subselect -> rewriting)
           (active : list table) (t : table) (subs : list subselect)
  : rewriting :=
  match subs with
  | [] => Expanded
  | _ :: _ =>
      if existsb (table_eqb t) active then Recursive t
      else first_failure (map (fire (t :: active)) subs)
  end.

(** Rewriting one sub-select, which reads its table under the [SELECT]
    policies.  [depth] bounds the nesting, as the stack of the server
    does. *)
Fixpoint fire (depth : nat) (s : session) (active : list table) (q : subselect)
  : rewriting :=
  match depth with
  | 0 => Unfinished
  | S depth' =>
      match q with
      | FROM t where_ =>
          match first_failure (map (fire depth' s active) where_) with
          | Expanded =>
              add_policies (fire depth' s) active t (subselects_of [Select] s t)
          | r => r
          end
      end
  end.

Definition max_depth : nat := 100.

(** Rewriting a statement on table [t] that falls under the policies of the
    commands [cs]. *)
Definition expand_policies (cs : list command) (s : session) (t : table)
  : rewriting :=
  add_policies (fire max_depth s) [] t (subselects_of cs s t).

(** *** The conditions on a row *)

(** The condition a policy puts on an existing row. *)
Definition using_of {R} (p : policy R) (d : db) (uid : option uuid) (r : R)
  : sql_bool :=
  match polqual p with
  | Some q => q d uid r
  | None => Some true
  end.

(** The condition a policy puts on a new row: its [WITH CHECK], or its
    [USING] when it has none. *)
Definition check_of {R} (p : policy R) (d : db) (uid : option uuid) (r : R)
  : sql_bool :=
  match polwithcheck p with
  | Some q => q d uid r
  | None => using_of p d uid r
  end.

(** Does the stored row [r] meet the conditions that the policies of
    command [c] put on it for session [s]? *)
Definition rls_using (c : command) (s : session) (d : db) (t : table)
           (r : row_of t) : bool :=
  negb (row_security t) || bypass_rls s ||
  existsb (fun p => applies c s p && sql_true (using_of p d (auth_uid s) r))
          (policies t).

(** Does the new row [r] meet the conditions that the policies of command
    [c] put on it for session [s]? *)
Definition rls_check (c : command) (s : session) (d : db) (t : table)
           (r : row_of t) : bool :=
  negb (row_security t) || bypass_rls s ||
  existsb (fun p => applies c s p && sql_true (check_of p d (auth_uid s) r))
          (policies t).

(** The rows of [t] that meet the conditions of its [SELECT] policies. *)
Definition select_from (s : session) (t : table) (d : db) : list (row_of t) :=
  filter (rls_using Select s d t) (rows t d).

(** ** Errors and declared constraints *)

Inductive sql_error :=
| insufficient_privilege   (* 42501: new row violates row-level security policy *)
| unique_violation         (* 23505 *)
| foreign_key_violation    (* 23503 *)
| infinite_recursion (rel : table)
                           (* 42P17: infinite recursion detected in policy for
                              relation rel *)
| statement_too_complex.   (* 54001: stack depth limit exceeded *)

Inductive result (A : Type) :=
| Ok (a : A)
| Error (e : sql_error).
Arguments Error {A} e.

(** The error, if any, that expanding the policies raises. *)
Definition policy_error (cs : list command) (s : session) (t : table)
  : option sql_error :=
  match expand_policies cs s t with
  | Expanded => None
  | Recursive rel => Some (infinite_recursion rel)
  | Unfinished => Some statement_too_complex
  end.

(** [SELECT * FROM t] as issued by the session. *)
Definition query (s : session) (t : table) (d : db) : result (list (row_of t)) :=
  match policy_error [Select] s t with
  | Some e => Error e
  | None => Ok (select_from s t d)
  end.

(** Whether that [SELECT] returns the stored row [r]. *)
Definition can_view (s : session) (t : table) (r : row_of t) (d : db)
  : result bool :=
  match policy_error [Select] s t with
  | Some e => Error e
  | None => Ok (rls_using Select s d t r)
  end.

(** No two elements of the list are equal under [eqb]. *)
Fixpoint distinct {A : Type} (eqb : A -> A -> bool) (l : list A) : bool :=
  match l with
  | [] => true
  | x :: l' => negb (existsb (eqb x) l') && distinct eqb l'
  end.

Definition pair_eqb (a b : uuid * uuid) : bool :=
  N.eqb (fst a) (fst b) && N.eqb (snd a) (snd b).

(** Every listed key is the id of some parent row. *)
Definition all_in (keys parents : list uuid) : bool :=
  forallb (fun k => existsb (N.eqb k) parents) keys.

(** The non-NULL values of a nullable column. *)
Fixpoint non_null {A : Type} (l : list (option A)) : list A :=
  match l with
  | [] => []
  | Some x :: l' => x :: non_null l'
  | None :: l' => non_null l'
  end.

Definition case_link_key (l : case_circles.row) : uuid * uuid :=
  (case_circles.case_id l, case_circles.circle_id l).

(** [PRIMARY KEY] and [UNIQUE] declarations, and last the key of
    [auth.users] that the migration references. *)
Definition unique_constraints (d : db) : list bool :=
  [ distinct N.eqb (map judicial_circles.id (judicial_circles d));
    distinct N.eqb (map user_profiles.id (user_profiles d));
    distinct String.eqb (map user_profiles.employee_id (user_profiles d));
    distinct N.eqb (map cases.id (cases d));
    distinct String.eqb (map cases.case_number (cases d));
    distinct N.eqb (map case_circles.id (case_circles d));
    distinct pair_eqb (map case_link_key (case_circles d));
    distinct N.eqb (map case_threads.id (case_threads d));
    distinct N.eqb (map case_messages.id (case_messages d));
    distinct N.eqb (map case_documents.id (case_documents d));
    distinct N.eqb (map audit_logs.id (audit_logs d));
    distinct N.eqb (auth_users d) ].

(** [REFERENCES] declarations: first those between the tables of this
    migration, then those into [auth.users(id)]. *)
Definition foreign_keys (d : db) : list bool :=
  [ all_in (non_null (map user_profiles.circle_id (user_profiles d)))
           (map judicial_circles.id (judicial_circles d));
    all_in (map cases.primary_circle_id (cases d))
           (map judicial_circles.id (judicial_circles d));
    all_in (map case_circles.case_id (case_circles d)) (map cases.id (cases d));
    all_in (map case_circles.circle_id (case_circles d))
           (map judicial_circles.id (judicial_circles d));
    all_in (map case_threads.case_id (case_threads d)) (map cases.id (cases d));
    all_in (map case_messages.thread_id (case_messages d))
           (map case_threads.id (case_threads d));
    all_in (map case_documents.case_id (case_documents d)) (map cases.id (cases d));
    all_in (map user_profiles.id (user_profiles d)) (auth_users d);
    all_in (map cases.created_by (cases d)) (auth_users d);
    all_in (non_null (map cases.assigned_judge (cases d))) (auth_users d);
    all_in (map case_circles.added_by (case_circles d)) (auth_users d);
    all_in (map case_threads.created_by (case_threads d)) (auth_users d);
    all_in (map case_messages.sender_id (case_messages d)) (auth_users d);
    all_in (map case_documents.uploaded_by (case_documents d)) (auth_users d);
    all_in (non_null (map audit_logs.user_id (audit_logs d))) (auth_users d) ].

(** The first kind of constraint the state breaks, if any. *)
Definition violated (d : db) : option sql_error :=
  if negb (forallb (fun b => b) (unique_constraints d)) then Some unique_violation
  else if negb (forallb (fun b => b) (foreign_keys d)) then Some foreign_key_violation
  else None.

(** A statement takes effect only if the state it produces keeps every
    constraint. *)
Definition commit (d : db) : result db :=
  match violated d with
  | Some e => Error e
  | None => Ok d
  end.

(** ** Statements *)

(** [INSERT INTO t VALUES new]; [UPDATE t SET ... WHERE ...] and
    [DELETE FROM t WHERE ...], whose [WHERE] and [SET] expressions read
    columns of the row; and the two forms that read no column:
    [UPDATE t SET column = value, ...] and [DELETE FROM t], without a
    [WHERE]. *)
Inductive statement :=
| INSERT (t : table) (new : row_of t)
| UPDATE (t : table) (where_ : row_of t -> bool) (set_ : row_of t -> row_of t)
| DELETE (t : table) (where_ : row_of t -> bool)
| UPDATE_SET (t : table) (set_ : assignment_of t)
| DELETE_ALL (t : table).

Definition mem (x : uuid) (l : list uuid) : bool := existsb (N.eqb x) l.

(** [ON DELETE CASCADE]: rows of [case_circles], [case_threads] and
    [case_documents] go with their case, rows of [case_messages] with their
    thread.  [gone] holds the ids deleted from [t]. *)
Definition cascade (t : table) (gone : list uuid) (d : db) : db :=
  match t with
  | t_cases =>
      let dead_threads :=
        map case_threads.id
            (filter (fun x => mem (case_threads.case_id x) gone) (case_threads d)) in
      Build_db (auth_users d) (judicial_circles d) (user_profiles d) (cases d)
        (filter (fun x => negb (mem (case_circles.case_id x) gone)) (case_circles d))
        (filter (fun x => negb (mem (case_threads.case_id x) gone)) (case_threads d))
        (filter (fun x => negb (mem (case_messages.thread_id x) dead_threads))
                (case_messages d))
        (filter (fun x => negb (mem (case_documents.case_id x) gone))
                (case_documents d))
        (audit_logs d)
  | t_case_threads =>
      set_rows t_case_messages
        (filter (fun x => negb (mem (case_messages.thread_id x) gone))
                (case_messages d)) d
  | _ => d
  end.

Definition id_of (t : table) : row_of t -> uuid :=
  match t with
  | t_judicial_circles => judicial_circles.id
  | t_user_profiles => user_profiles.id
  | t_cases => cases.id
  | t_case_circles => case_circles.id
  | t_case_threads => case_threads.id
  | t_case_messages => case_messages.id
  | t_case_documents => case_documents.id
  | t_audit_logs => audit_logs.id
  end.

(** The rows [hit] are rewritten by [set_]; each rewritten row must pass
    [check], or the statement fails as a whole. *)
Definition update_rows (t : table) (hit check : row_of t -> bool)
           (set_ : row_of t -> row_of t) (d : db) : result db :=
  if forallb (fun r => check (set_ r)) (filter hit (rows t d))
  then commit (set_rows t (map (fun r => if hit r then set_ r else r) (rows t d)) d)
  else Error insufficient_privilege.

(** The rows [hit] go, and with them what cascades. *)
Definition delete_rows (t : table) (hit : row_of t -> bool) (d : db) : result db :=
  commit (cascade t (map (id_of t) (filter hit (rows t d)))
                  (set_rows t (filter (fun r => negb (hit r)) (rows t d)) d)).

(** One statement of session [s] on state [d].  The policies it falls
    under are expanded first; a statement that reads columns of its table
    falls under the [SELECT] policies as well as those of its command.
    - [INSERT]: the new row must pass the insert check of row security.
    - [UPDATE]: the rows hit are those matching [WHERE] that the policies
      expose; each rewritten row must pass the check.
    - [DELETE]: the rows hit are those matching [WHERE] that the policies
      expose. *)
Definition exec (s : session) (st : statement) (d : db) : result db :=
  match st with
  | INSERT t new =>
      match policy_error [Insert] s t with
      | Some e => Error e
      | None =>
          if rls_check Insert s d t new
          then commit (set_rows t (rows t d ++ [new]) d)
          else Error insufficient_privilege
      end
  | UPDATE t where_ set_ =>
      match policy_error [Update; Select] s t with
      | Some e => Error e
      | None =>
          update_rows t
            (fun r => where_ r && rls_using Update s d t r
                      && rls_using Select s d t r)
            (fun r => rls_check Update s d t r && rls_using Select s d t r)
            set_ d
      end
  | DELETE t where_ =>
      match policy_error [Delete; Select] s t with
      | Some e => Error e
      | None =>
          delete_rows t
            (fun r => where_ r && rls_using Delete s d t r
                      && rls_using Select s d t r)
            d
      end
  | UPDATE_SET t set_ =>
      match policy_error [Update] s t with
      | Some e => Error e
      | None =>
          update_rows t (rls_using Update s d t) (rls_check Update s d t)
                      (assign t set_) d
      end
  | DELETE_ALL t =>
      match policy_error [Delete] s t with
      | Some e => Error e
      | None => delete_rows t (rls_using Delete s d t) d
      end
  end.

(** A failed statement leaves the database as it was. *)
Definition state_after (d : db) (r : result db) : db :=
  match r with
  | Ok d' => d'
  | Error _ => d
  end.

(** ** Functions of the migration *)

(** [handle_new_user()], the [AFTER INSERT] trigger on [auth.users]: it
    returns [NEW] and writes nothing; profiles are created elsewhere. *)
Definition handle_new_user (NEW : uuid) (d : db) : db := d.

(** [log_audit_event(p_action, p_resource_type, p_resource_id, p_details)],
    [SECURITY DEFINER]:
    [INSERT INTO audit_logs (user_id, action, resource_type, resource_id,
     details) VALUES (auth.uid(), ...)].
    The migration revokes nothing on it, so it keeps the default [EXECUTE]
    grant to [PUBLIC]: every role may call it. *)
Definition log_audit_event (s : session)
           (p_action p_resource_type : text) (p_resource_id : option uuid)
           (p_details : jsonb)
           (gen_random_uuid : uuid) (now : timestamptz) (d : db) : result db :=
  exec (security_definer s)
       (INSERT t_audit_logs
          {| audit_logs.id := gen_random_uuid;
             audit_logs.user_id := auth_uid s;
             audit_logs.action := p_action;
             audit_logs.resource_type := p_resource_type;
             audit_logs.resource_id := p_resource_id;
             audit_logs.details := Some p_details;
             audit_logs.ip_address := None;
             audit_logs.user_agent := None;
             audit_logs.created_at := Some now |})
       d.

(** What a client can ask of the database: a statement on a table, a call
    of [log_audit_event], or a sign-up, which adds the user to [auth.users]
    and fires [handle_new_user]. *)
Inductive request :=
| Statement (st : statement)
| Call_log_audit_event (p_action p_resource_type : text)
                       (p_resource_id : option uuid) (p_details : jsonb)
                       (gen_random_uuid : uuid) (now : timestamptz)
| Sign_up (NEW : uuid).

Definition serve (s : session) (q : request) (d : db) : result db :=
  match q with
  | Statement st => exec s st d
  | Call_log_audit_event a rt rid det u n => log_audit_event s a rt rid det u n d
  | Sign_up NEW => commit (handle_new_user NEW (add_user NEW d))
  end.

(** ** The entitled circles of a case

    The set the specification names [entitledCircles]:
    [{primary_circle_id} ∪ {circle_id : link.case_id = case.id}].  The
    migration has no such function; the policies are compared with it
    below. *)
Definition entitledCircles (d : db) (c : cases.row) : list uuid :=
  cases.primary_circle_id c ::
  map case_circles.circle_id
      (filter (fun l => N.eqb (case_circles.case_id l) (cases.id c)) (case_circles d)).

(** ** Vocabulary of the statements below *)

(** The state keeps every declared constraint. *)
Definition consistent (d : db) : Prop := violated d = None.

(** The session is subject to row security. *)
Definition restricted (s : session) : Prop := bypass_rls s = false.

(** The session runs as [authenticated] with the token of profile [p]. *)
Definition logged_in (s : session) (p : user_profiles.row) : Prop :=
  current_user s = authenticated /\ auth_uid s = Some (user_profiles.id p).

(** The caller has no profile row, or a profile whose [circle_id] is NULL. *)
Definition no_home_circle (d : db) (s : session) : Prop :=
  (forall p, In p (user_profiles d) -> auth_uid s <> Some (user_profiles.id p))
  \/ (exists p, In p (user_profiles d)
                /\ auth_uid s = Some (user_profiles.id p)
                /\ user_profiles.circle_id p = None).

(** [FOR UPDATE] policies exist on [user_profiles] and [cases] only. *)
Definition update_policy (t : table) : bool :=
  match t with t_user_profiles | t_cases => true | _ => false end.

(** [FOR INSERT] policies exist on [cases], [case_threads], [case_messages],
    [case_documents] and [audit_logs] only. *)
Definition insert_policy (t : table) : bool :=
  match t with
  | t_judicial_circles | t_user_profiles | t_case_circles => false
  | _ => true
  end.

(** The tables whose [SELECT] policy reads [cases] or [case_circles]. *)
Definition case_table (t : table) : bool :=
  match t with
  | t_cases | t_case_circles | t_case_threads | t_case_messages
  | t_case_documents => true
  | _ => false
  end.

(** Those of them whose [INSERT] policy does so too. *)
Definition case_child (t : table) : bool :=
  match t with
  | t_case_threads | t_case_messages | t_case_documents => true
  | _ => false
  end.



(** ** A sample database

    The four circles carry the ids of the rows the migration inserts, with
    their names shortened; the other rows are test data. *)
Module Sample.
Local Open Scope N_scope.
Local Open Scope string_scope.

Definition circle (n : uuid) (nm : text) : judicial_circles.row :=
  {| judicial_circles.id := n; judicial_circles.name := nm;
     judicial_circles.description := None;
     judicial_circles.created_at := Some 0%N |}.

Definition criminal : uuid := 0x11111111111111111111111111111111%N.
Definition civil : uuid := 0x22222222222222222222222222222222%N.
Definition family : uuid := 0x33333333333333333333333333333333%N.
Definition commercial : uuid := 0x44444444444444444444444444444444%N.

Definition profile (n : uuid) (r : user_role) (c : option uuid) (e : text)
  : user_profiles.row :=
  {| user_profiles.id := n; user_profiles.full_name := e;
     user_profiles.role := r; user_profiles.circle_id := c;
     user_profiles.employee_id := e; user_profiles.created_at := Some 0%N |}.

Definition judge_A := profile 101 judge (Some criminal) "EMP001".
Definition clerk_B := profile 102 clerk (Some civil) "EMP002".
Definition trainee_C := profile 103 trainee (Some family) "EMP003".
Definition judge_unassigned := profile 104 judge None "EMP004".
Definition judge_D := profile 105 judge (Some commercial) "EMP005".

Definition case_row (n : uuid) (num : text) (c by_ : uuid) : cases.row :=
  {| cases.id := n; cases.case_number := num; cases.title := num;
     cases.description := None; cases.status := open;
     cases.priority := medium; cases.primary_circle_id := c;
     cases.created_by := by_; cases.assigned_judge := None;
     cases.created_at := Some 1%N; cases.updated_at := Some 1%N |}.

Definition case_1 := case_row 201 "CASE-1" criminal 101.

Definition link (n case_ circle_ by_ : uuid) : case_circles.row :=
  {| case_circles.id := n; case_circles.case_id := case_;
     case_circles.circle_id := circle_; case_circles.role := collaborating;
     case_circles.added_at := Some 2%N; case_circles.added_by := by_ |}.

Definition link_1_civil := link 301 201 civil 101.

Definition thread_1 : case_threads.row :=
  {| case_threads.id := 401; case_threads.case_id := 201;
     case_threads.title := "hearing"; case_threads.created_by := 101;
     case_threads.created_at := Some 3%N |}.

Definition message_1 : case_messages.row :=
  {| case_messages.id := 501; case_messages.thread_id := 401;
     case_messages.content := "adjourned"; case_messages.sender_id := 102;
     case_messages.created_at := Some 4%N; case_messages.edited_at := None |}.

Definition document_1 : case_documents.row :=
  {| case_documents.id := 601; case_documents.case_id := 201;
     case_documents.file_name := "ruling.pdf";
     case_documents.file_path := "cases/201/ruling.pdf";
     case_documents.file_type := "application/pdf";
     case_documents.file_size := 1024%Z; case_documents.ocr_content := None;
     case_documents.uploaded_by := 101; case_documents.uploaded_at := Some 5%N |}.

Definition audit_1 : audit_logs.row :=
  {| audit_logs.id := 701; audit_logs.user_id := Some 101%N;
     audit_logs.action := "create"; audit_logs.resource_type := "case";
     audit_logs.resource_id := Some 201%N; audit_logs.details := Some "{}";
     audit_logs.ip_address := None; audit_logs.user_agent := None;
     audit_logs.created_at := Some 1%N |}.

Definition circles : list judicial_circles.row :=
  [ circle criminal "criminal-1"; circle civil "civil-1";
    circle family "family"; circle commercial "commercial" ].

(** CASE-1 of the criminal circle, not yet shared.  User 999 has signed up
    and has no profile. *)
Definition unshared : db :=
  {| auth_users := [101; 102; 103; 104; 105; 999];
     judicial_circles := circles;
     user_profiles := [judge_A; clerk_B; trainee_C; judge_unassigned; judge_D];
     cases := [case_1];
     case_circles := [];
     case_threads := [thread_1];
     case_messages := [message_1];
     case_documents := [document_1];
     audit_logs := [audit_1] |}.

(** CASE-1 shared with the civil circle. *)
Definition shared : db := set_rows t_case_circles [link_1_civil] unshared.

Definition as_user (p : user_profiles.row) : session :=
  {| current_user := authenticated; jwt_sub := Some (user_profiles.id p) |}.

Definition stranger : session :=
  {| current_user := authenticated; jwt_sub := Some 999%N |}.

Definition anonymous : session :=
  {| current_user := anon; jwt_sub := None |}.

Definition owner : session :=
  {| current_user := table_owner; jwt_sub := None |}.

(** A second link of CASE-1 to the civil circle, as a repeated add makes. *)
Definition link_1_civil_again := link 302 201 civil 101.

Definition case_2 := case_row 202 "CASE-2" civil 104.

(** [UPDATE case_messages SET edited_at = ts WHERE id = n] *)
Definition edit_message (n : uuid) (ts : timestamptz) : statement :=
  UPDATE t_case_messages
    (fun m => N.eqb (case_messages.id m) n)
    (fun m => {| case_messages.id := case_messages.id m;
                 case_messages.thread_id := case_messages.thread_id m;
                 case_messages.content := case_messages.content m;
                 case_messages.sender_id := case_messages.sender_id m;
                 case_messages.created_at := case_messages.created_at m;
                 case_messages.edited_at := Some ts |}).

(** [DELETE FROM case_messages WHERE id = n] *)
Definition delete_message (n : uuid) : statement :=
  DELETE t_case_messages (fun m => N.eqb (case_messages.id m) n).

(** [UPDATE cases SET status = 'closed' WHERE id = n] *)
Definition close_case (n : uuid) : statement :=
  UPDATE t_cases
    (fun c => N.eqb (cases.id c) n)
    (fun c => {| cases.id := cases.id c;
                 cases.case_number := cases.case_number c;
                 cases.title := cases.title c;
                 cases.description := cases.description c;
                 cases.status := closed;
                 cases.priority := cases.priority c;
                 cases.primary_circle_id := cases.primary_circle_id c;
                 cases.created_by := cases.created_by c;
                 cases.assigned_judge := cases.assigned_judge c;
                 cases.created_at := cases.created_at c;
                 cases.updated_at := Some 6 |}).

(** [UPDATE cases SET status = 'closed', updated_at = 6] *)
Definition close_cases : statement :=
  UPDATE_SET t_cases
    {| cases.set_id := None; cases.set_case_number := None;
       cases.set_title := None; cases.set_description := None;
       cases.set_status := Some closed; cases.set_priority := None;
       cases.set_primary_circle_id := None; cases.set_created_by := None;
       cases.set_assigned_judge := None; cases.set_created_at := None;
       cases.set_updated_at := Some (Some 6) |}.


(** [UPDATE case_messages SET edited_at = ts] *)
Definition touch_messages (ts : timestamptz) : statement :=
  UPDATE_SET t_case_messages
    {| case_messages.set_id := None; case_messages.set_thread_id := None;
       case_messages.set_content := None; case_messages.set_sender_id := None;
       case_messages.set_created_at := None;
       case_messages.set_edited_at := Some (Some ts) |}.



Definition audit_2 : audit_logs.row :=
  {| audit_logs.id := 702; audit_logs.user_id := None;
     audit_logs.action := "deny"; audit_logs.resource_type := "case";
     audit_logs.resource_id := Some 201%N; audit_logs.details := Some "{}";
     audit_logs.ip_address := None; audit_logs.user_agent := None;
     audit_logs.created_at := Some 9%N |}.
End Sample.

(** ** Vocabulary of the further properties *)

(** The ids of the cases a [DELETE FROM cases WHERE ...] removes. *)
Definition deleted_case_ids (where_ : cases.row -> bool) (d : db) : list uuid :=
  map cases.id (filter where_ (cases d)).

(** The state after the matching cases, and all that hangs on them, are
    gone. *)
Definition after_case_delete (where_ : cases.row -> bool) (d : db) : db :=
  cascade t_cases (deleted_case_ids where_ d)
          (set_rows t_cases (filter (fun c => negb (where_ c)) (cases d)) d).

(** * The application shell, [source/App.tsx]

    [App] keeps the active tab, four selections and the mock profile in
    React state, and [renderContent] picks the view from them.  A handler is
    an [action]; [dispatch] is its body as a state update.  A view carries
    its data props and, for each callback prop, the action the callback
    fires.  [showSuccess] belongs to the [useNotifications] hook, which is
    not part of this file: the state records the calls made to it.  The
    components themselves are imported, not defined here. *)
Module App.
Local Open Scope string_scope.

(** The nested [judicial_circle] object of the mock profile. *)
Record circle_info := {
  ci_id : string;
  ci_name : string;
  ci_description : string;
  ci_created_at : string
}.

(** The mock profile.  Its [role] is the string ['judge']. *)
Record profile := {
  id : string;
  full_name : string;
  role : string;
  circle_id : string;
  employee_id : string;
  created_at : string;
  judicial_circle : circle_info
}.

(** [Partial<typeof mockProfile>]: each key is given or left out (a key
    given with the value [undefined] is not represented). *)
Record profile_updates := {
  u_id : option string;
  u_full_name : option string;
  u_role : option string;
  u_circle_id : option string;
  u_employee_id : option string;
  u_created_at : option string;
  u_judicial_circle : option circle_info
}.

Definition or_keep {A : Type} (given : option A) (prev : A) : A :=
  match given with Some v => v | None => prev end.

(** [{ ...prev, ...updates }] *)
Definition spread (prev : profile) (updates : profile_updates) : profile :=
  {| id := or_keep (u_id updates) (id prev);
     full_name := or_keep (u_full_name updates) (full_name prev);
     role := or_keep (u_role updates) (role prev);
     circle_id := or_keep (u_circle_id updates) (circle_id prev);
     employee_id := or_keep (u_employee_id updates) (employee_id prev);
     created_at := or_keep (u_created_at updates) (created_at prev);
     judicial_circle := or_keep (u_judicial_circle updates) (judicial_circle prev) |}.

(** The [useState] cells of [App], and the calls made to [showSuccess],
    oldest first, each with its title and message. *)
Record state := {
  activeTab : string;
  selectedCaseId : option string;
  selectedThreadId : option string;
  selectedDocumentId : option string;
  selectedCircleId : option string;
  mockProfile : profile;
  showSuccess_calls : list (string * string)
}.

(** The state of the first render; the two timestamps are the two
    [new Date().toISOString()] of the initial profile. *)
Definition initial (now_profile now_circle : string) : state :=
  {| activeTab := "dashboard";
     selectedCaseId := None;
     selectedThreadId := None;
     selectedDocumentId := None;
     selectedCircleId := None;
     mockProfile :=
       {| id := "mock-user-id";
          full_name := "أحمد محمد القاضي";
          role := "judge";
          circle_id := "mock-circle-id";
          employee_id := "EMP001";
          created_at := now_profile;
          judicial_circle :=
            {| ci_id := "mock-circle-id";
               ci_name := "الدائرة الجزائية الأولى";
               ci_description := "دائرة متخصصة في القضايا الجزائية";
               ci_created_at := now_circle |} |};
     showSuccess_calls := [] |}.

Definition with_tab (tab : string) (st : state) : state :=
  {| activeTab := tab;
     selectedCaseId := selectedCaseId st;
     selectedThreadId := selectedThreadId st;
     selectedDocumentId := selectedDocumentId st;
     selectedCircleId := selectedCircleId st;
     mockProfile := mockProfile st;
     showSuccess_calls := showSuccess_calls st |}.

Definition with_case (v : option string) (st : state) : state :=
  {| activeTab := activeTab st;
     selectedCaseId := v;
     selectedThreadId := selectedThreadId st;
     selectedDocumentId := selectedDocumentId st;
     selectedCircleId := selectedCircleId st;
     mockProfile := mockProfile st;
     showSuccess_calls := showSuccess_calls st |}.

Definition with_thread (v : option string) (st : state) : state :=
  {| activeTab := activeTab st;
     selectedCaseId := selectedCaseId st;
     selectedThreadId := v;
     selectedDocumentId := selectedDocumentId st;
     selectedCircleId := selectedCircleId st;
     mockProfile := mockProfile st;
     showSuccess_calls := showSuccess_calls st |}.

Definition with_document (v : option string) (st : state) : state :=
  {| activeTab := activeTab st;
     selectedCaseId := selectedCaseId st;
     selectedThreadId := selectedThreadId st;
     selectedDocumentId := v;
     selectedCircleId := selectedCircleId st;
     mockProfile := mockProfile st;
     showSuccess_calls := showSuccess_calls st |}.

Definition with_circle (v : option string) (st : state) : state :=
  {| activeTab := activeTab st;
     selectedCaseId := selectedCaseId st;
     selectedThreadId := selectedThreadId st;
     selectedDocumentId := selectedDocumentId st;
     selectedCircleId := v;
     mockProfile := mockProfile st;
     showSuccess_calls := showSuccess_calls st |}.

Definition with_profile (p : profile) (st : state) : state :=
  {| activeTab := activeTab st;
     selectedCaseId := selectedCaseId st;
     selectedThreadId := selectedThreadId st;
     selectedDocumentId := selectedDocumentId st;
     selectedCircleId := selectedCircleId st;
     mockProfile := p;
     showSuccess_calls := showSuccess_calls st |}.

(** [showSuccess(title, message)] *)
Definition showSuccess (title message : string) (st : state) : state :=
  {| activeTab := activeTab st;
     selectedCaseId := selectedCaseId st;
     selectedThreadId := selectedThreadId st;
     selectedDocumentId := selectedDocumentId st;
     selectedCircleId := selectedCircleId st;
     mockProfile := mockProfile st;
     showSuccess_calls := (showSuccess_calls st ++ [(title, message)])%list |}.

(** The handlers of [App]; [setActiveTab] is what the sidebar calls and
    [updateProfile] what the header calls. *)
Inductive action :=
| setActiveTab (tab : string)
| updateProfile (updates : profile_updates)
| handleCaseSelect (caseId : string)
| handleNewCase
| handleCaseCreated (caseId : string)
| handleBackToCases
| handleThreadSelect (threadId : string)
| handleNewThread
| handleThreadCreated (threadId : string)
| handleBackToThreads
| handleDocumentSelect (documentId : string)
| handleUploadDocument
| handleDocumentUploaded (documentId : string)
| handleBackToDocuments
| handleCircleSelect (circleId : string)
| handleNewCircle
| handleCircleCreated (circleId : string)
| handleBackToCircles
| handleManageCollaboration (circleId : string).

Definition dispatch (a : action) (st : state) : state :=
  match a with
  | setActiveTab tab => with_tab tab st
  | updateProfile updates =>
      showSuccess "تم حفظ التغييرات" "تم تحديث الملف الشخصي بنجاح"
        (with_profile (spread (mockProfile st) updates) st)
  | handleCaseSelect caseId =>
      with_tab "case-details" (with_case (Some caseId) st)
  | handleNewCase => with_tab "new-case" st
  | handleCaseCreated caseId =>
      showSuccess "تم إنشاء القضية" "تم إنشاء القضية الجديدة بنجاح"
        (with_tab "case-details" (with_case (Some caseId) st))
  | handleBackToCases => with_tab "cases" (with_case None st)
  | handleThreadSelect threadId =>
      with_tab "thread-view" (with_thread (Some threadId) st)
  | handleNewThread => with_tab "new-thread" st
  | handleThreadCreated threadId =>
      showSuccess "تم إنشاء المناقشة" "تم إنشاء المناقشة الجديدة بنجاح"
        (with_tab "thread-view" (with_thread (Some threadId) st))
  | handleBackToThreads => with_tab "threads" (with_thread None st)
  | handleDocumentSelect documentId =>
      with_tab "document-viewer" (with_document (Some documentId) st)
  | handleUploadDocument => with_tab "document-upload" st
  | handleDocumentUploaded documentId =>
      showSuccess "تم رفع المستند" "تم رفع المستند ومعالجته بتقنية OCR بنجاح"
        (with_tab "document-viewer" (with_document (Some documentId) st))
  | handleBackToDocuments => with_tab "documents" (with_document None st)
  | handleCircleSelect circleId =>
      with_tab "circle-details" (with_circle (Some circleId) st)
  | handleNewCircle => with_tab "new-circle" st
  | handleCircleCreated circleId =>
      showSuccess "تم إنشاء الدائرة" "تم إنشاء الدائرة القضائية الجديدة بنجاح"
        (with_tab "circle-details" (with_circle (Some circleId) st))
  | handleBackToCircles => with_tab "circles" (with_circle None st)
  | handleManageCollaboration circleId =>
      with_tab "collaboration-manager" (with_circle (Some circleId) st)
  end.

(** What [renderContent] returns: the component, its data props, and the
    action behind each callback prop. *)
Inductive element :=
| Dashboard (mockProfile : profile)
| CasesList (onCaseSelect : string -> action) (onNewCase : action)
| NewCaseForm (onBack : action) (onCaseCreated : string -> action)
| CaseDetails (caseId : string) (onBack : action)
| ThreadsList (onThreadSelect : string -> action) (onNewThread : action)
| NewThreadForm (onBack : action) (onThreadCreated : string -> action)
| ThreadView (threadId : string) (onBack : action)
| DocumentsList (onDocumentSelect : string -> action) (onUploadDocument : action)
| DocumentUpload (onBack : action) (onUploadComplete : string -> action)
| DocumentViewer (documentId : string) (onBack : action)
| CirclesList (onCircleSelect : string -> action) (onNewCircle : action)
              (onManageCollaboration : string -> action)
| NewCircleForm (onBack : action) (onCircleCreated : string -> action)
| CircleDetails (circleId : string) (onBack : action)
                (onManageCollaboration : action)
| CollaborationManager (circleId : string) (onBack : action)
| AuditLog
| ReportsDashboard.

(** [selected ? detail : list]: [null] and the empty string are falsy. *)
Definition if_selected (selected : option string)
           (detail : string -> element) (list_ : element) : element :=
  match selected with
  | Some v => if String.eqb v "" then list_ else detail v
  | None => list_
  end.

Definition cases_list : element := CasesList handleCaseSelect handleNewCase.
Definition threads_list : element := ThreadsList handleThreadSelect handleNewThread.
Definition documents_list : element :=
  DocumentsList handleDocumentSelect handleUploadDocument.
Definition circles_list : element :=
  CirclesList handleCircleSelect handleNewCircle handleManageCollaboration.

(** [renderContent], the [switch (activeTab)]. *)
Definition renderContent (st : state) : element :=
  let tab := activeTab st in
  if String.eqb tab "dashboard" then Dashboard (mockProfile st)
  else if String.eqb tab "cases" then cases_list
  else if String.eqb tab "new-case" then
    NewCaseForm handleBackToCases handleCaseCreated
  else if String.eqb tab "case-details" then
    if_selected (selectedCaseId st)
      (fun v => CaseDetails v handleBackToCases) cases_list
  else if String.eqb tab "threads" then threads_list
  else if String.eqb tab "new-thread" then
    NewThreadForm handleBackToThreads handleThreadCreated
  else if String.eqb tab "thread-view" then
    if_selected (selectedThreadId st)
      (fun v => ThreadView v handleBackToThreads) threads_list
  else if String.eqb tab "documents" then documents_list
  else if String.eqb tab "document-upload" then
    DocumentUpload handleBackToDocuments handleDocumentUploaded
  else if String.eqb tab "document-viewer" then
    if_selected (selectedDocumentId st)
      (fun v => DocumentViewer v handleBackToDocuments) documents_list
  else if String.eqb tab "circles" then circles_list
  else if String.eqb tab "new-circle" then
    NewCircleForm handleBackToCircles handleCircleCreated
  else if String.eqb tab "circle-details" then
    if_selected (selectedCircleId st)
      (fun v => CircleDetails v handleBackToCircles (handleManageCollaboration v))
      circles_list
  else if String.eqb tab "collaboration-manager" then
    if_selected (selectedCircleId st)
      (fun v => CollaborationManager v handleBackToCircles) circles_list
  else if String.eqb tab "audit" then AuditLog
  else if String.eqb tab "reports" then ReportsDashboard
  else Dashboard (mockProfile st).

(** The callback a view passes back up when its back button is used, if it
    has one. *)
Definition onBack_of (e : element) : option action :=
  match e with
  | NewCaseForm b _ | CaseDetails _ b
  | NewThreadForm b _ | ThreadView _ b
  | DocumentUpload b _ | DocumentViewer _ b
  | NewCircleForm b _ | CircleDetails _ b _ | CollaborationManager _ b => Some b
  | _ => None
  end.

(** The list view a view belongs to. *)
Definition list_of (e : element) : element :=
  match e with
  | CasesList _ _ | NewCaseForm _ _ | CaseDetails _ _ => cases_list
  | ThreadsList _ _ | NewThreadForm _ _ | ThreadView _ _ => threads_list
  | DocumentsList _ _ | DocumentUpload _ _ | DocumentViewer _ _ => documents_list
  | CirclesList _ _ _ | NewCircleForm _ _ | CircleDetails _ _ _
  | CollaborationManager _ _ => circles_list
  | other => other
  end.

(** The id a detail view shows, if it is one. *)
Definition shown_id (e : element) : option string :=
  match e with
  | CaseDetails v _ | ThreadView v _ | DocumentViewer v _
  | CircleDetails v _ _ | CollaborationManager v _ => Some v
  | _ => None
  end.

(** A sequence of handler calls, applied in order. *)
Definition run (acts : list action) (st : state) : state :=
  fold_left (fun s a => dispatch a s) acts st.

(** The four selections. *)
Inductive kind := Case | Thread | Document | Circle.

Definition selection (k : kind) (st : state) : option string :=
  match k with
  | Case => selectedCaseId st
  | Thread => selectedThreadId st
  | Document => selectedDocumentId st
  | Circle => selectedCircleId st
  end.

(** The selection a handler writes, if it writes one. *)
Definition writes (a : action) : option kind :=
  match a with
  | handleCaseSelect _ | handleCaseCreated _ | handleBackToCases => Some Case
  | handleThreadSelect _ | handleThreadCreated _ | handleBackToThreads => Some Thread
  | handleDocumentSelect _ | handleDocumentUploaded _ | handleBackToDocuments =>
      Some Document
  | handleCircleSelect _ | handleCircleCreated _ | handleBackToCircles
  | handleManageCollaboration _ => Some Circle
  | _ => None
  end.

(** The handlers that end with a call of [showSuccess]. *)
Definition announces (a : action) : bool :=
  match a with
  | updateProfile _ | handleCaseCreated _ | handleThreadCreated _
  | handleDocumentUploaded _ | handleCircleCreated _ => true
  | _ => false
  end.

(** The tab on which the detail view of a selection is shown. *)
Definition detail_tab (k : kind) : string :=
  match k with
  | Case => "case-details"
  | Thread => "thread-view"
  | Document => "document-viewer"
  | Circle => "circle-details"
  end.

(** The list view of each kind. *)
Definition list_for (k : kind) : element :=
  match k with
  | Case => cases_list
  | Thread => threads_list
  | Document => documents_list
  | Circle => circles_list
  end.

(** The names [renderContent] has a case for. *)
Definition known_tabs : list string :=
  [ "dashboard"; "cases"; "new-case"; "case-details"; "threads"; "new-thread";
    "thread-view"; "documents"; "document-upload"; "document-viewer";
    "circles"; "new-circle"; "circle-details"; "collaboration-manager";
    "audit"; "reports" ]%list.
End App.

(** ** More sample data *)
Module Fixtures.
Import Sample.
Local Open Scope N_scope.
Local Open Scope string_scope.

(** The trainee's own row, rewritten to a judge of the criminal circle. *)
Definition trainee_C_promoted := profile 103 judge (Some criminal) "EMP003".

(** [UPDATE user_profiles SET full_name = employee_id, role = 'judge',
    created_at = 0], on every row the policies expose. *)
Definition promote_everyone : statement :=
  UPDATE t_user_profiles
    (fun _ => true)
    (fun r => profile (user_profiles.id r) judge (user_profiles.circle_id r)
                      (user_profiles.employee_id r)).

(** A new case of the criminal circle. *)
Definition case_3 := case_row 203 "CASE-3" criminal 102.

(** A case under the id of CASE-1, one under its number, and one under a
    circle that is not stored. *)
Definition case_same_id := case_row 201 "CASE-1b" criminal 101.
Definition case_same_number := case_row 204 "CASE-1" criminal 101.
Definition case_nowhere := case_row 205 "CASE-5" 999 101.

(** A case whose creator is not a user, and a session whose token outlived
    its user. *)
Definition case_by_nobody := case_row 206 "CASE-6" criminal 998.

Definition deleted_user : session :=
  {| current_user := authenticated; jwt_sub := Some 998 |}.

(** [UPDATE cases SET primary_circle_id = <civil>] *)
Definition to_civil : cases.assignment :=
  {| cases.set_id := None; cases.set_case_number := None;
     cases.set_title := None; cases.set_description := None;
     cases.set_status := None; cases.set_priority := None;
     cases.set_primary_circle_id := Some civil; cases.set_created_by := None;
     cases.set_assigned_judge := None; cases.set_created_at := None;
     cases.set_updated_at := None |}.

Definition is_case_1 (c : cases.row) : bool := N.eqb (cases.id c) 201.

Definition is_criminal (z : judicial_circles.row) : bool :=
  N.eqb (judicial_circles.id z) criminal.

(** The shell after a case has been opened. *)
Definition case_open : App.state :=
  App.dispatch (App.handleCaseSelect "case-7") (App.initial "t0" "t0").

Definition wander : list App.action :=
  [ App.handleThreadSelect "thread-3"; App.handleBackToThreads;
    App.handleNewCircle; App.setActiveTab "audit" ].
End Fixtures.

Unset Implicit Arguments.

(** * Properties *)

(** ** Three-valued conditions *)

Lemma user_role_eqb_eq a b : user_role_eqb a b = true <-> a = b.
Proof. destruct a, b; simpl; split; congruence. Qed.

Lemma sql_true_or a b : sql_true (sql_or a b) = sql_true a || sql_true b.
Proof. destruct a as [[|]|], b as [[|]|]; reflexivity. Qed.

Lemma sql_true_and a b : sql_true (sql_and a b) = sql_true a && sql_true b.
Proof. destruct a as [[|]|], b as [[|]|]; reflexivity. Qed.

Lemma sql_true_eq x u : sql_true (sql_eq (Some x) u) = true <-> u = Some x.
Proof.
  destruct u as [y|]; simpl.
  - destruct (N.eqb_spec x y); split; congruence.
  - split; discriminate.
Qed.

Lemma sql_true_eq_some x y : sql_true (sql_eq (Some x) (Some y)) = N.eqb x y.
Proof. simpl. destruct (N.eqb x y); reflexivity. Qed.

Lemma sql_true_some b : sql_true (Some b) = b.
Proof. destruct b; reflexivity. Qed.

Lemma sql_true_role_eq r x : sql_true (role_eq r x) = true <-> r = x.
Proof. unfold role_eq. rewrite sql_true_some. apply user_role_eqb_eq. Qed.

Lemma sql_true_role_in r l : sql_true (role_in r l) = true <-> In r l.
Proof.
  unfold role_in. rewrite sql_true_some, existsb_exists. split.
  - intros [x [Hx E]]. apply user_role_eqb_eq in E. now subst.
  - intros H. exists r. split; [assumption | now apply user_role_eqb_eq].
Qed.

Lemma sql_in_cons x y l : sql_in x (y :: l) = sql_or (sql_eq x y) (sql_in x l).
Proof. reflexivity. Qed.

(** [x IN (...)] is true exactly when [x] occurs among the values; a NULL
    among them never makes it true. *)
Lemma sql_true_in x l : sql_true (sql_in (Some x) l) = true <-> In (Some x) l.
Proof.
  induction l as [|y l IH].
  - simpl. split; [discriminate | tauto].
  - rewrite sql_in_cons, sql_true_or, orb_true_iff, IH, sql_true_eq.
    simpl. tauto.
Qed.

Lemma sql_in_no_value x l :
  (forall y, In y l -> y = None) -> sql_true (sql_in (Some x) l) = false.
Proof.
  intros H. destruct (sql_true (sql_in (Some x) l)) eqn:E; [|reflexivity].
  apply sql_true_in, H in E. discriminate.
Qed.

Lemma sql_where_In {R} (cond : R -> sql_bool) l r :
  In r (sql_where cond l) <-> In r l /\ sql_true (cond r) = true.
Proof. apply filter_In. Qed.

Lemma sql_exists_true {R} (l : list R) :
  sql_true (sql_exists l) = true <-> exists r, In r l.
Proof.
  destruct l as [|r l]; simpl.
  - split; [discriminate | intros [r []]].
  - split; [eauto | reflexivity].
Qed.

(** ** Keys *)

(** Rows of a table with a unique key are determined by their key. *)
Lemma unique_key {R} (key : R -> uuid) l x y :
  distinct N.eqb (map key l) = true ->
  In x l -> In y l -> key x = key y -> x = y.
Proof.
  induction l as [|z l IH]; simpl; [tauto|].
  intros H Hx Hy E. apply andb_true_iff in H as [Hz Hl].
  apply negb_true_iff in Hz.
  assert (fresh : forall w, In w l -> key w <> key z).
  { intros w Hw Ew.
    assert (existsb (N.eqb (key z)) (map key l) = true); [|congruence].
    apply existsb_exists. exists (key w). split; [now apply in_map|].
    now apply N.eqb_eq. }
  destruct Hx as [<-|Hx], Hy as [<-|Hy]; auto.
  - symmetry in E. now apply fresh in E.
  - now apply fresh in E.
Qed.

(** Selecting by a unique key returns the one row that has it. *)
Lemma filter_by_key {R} (key : R -> uuid) l x :
  distinct N.eqb (map key l) = true -> In x l ->
  filter (fun y => N.eqb (key y) (key x)) l = [x].
Proof.
  induction l as [|z l IH]; simpl; [tauto|].
  intros H Hx. apply andb_true_iff in H as [Hz Hl].
  apply negb_true_iff in Hz.
  assert (none : forall w, In w l -> N.eqb (key w) (key z) = false).
  { intros w Hw. apply N.eqb_neq. intros Ew.
    assert (existsb (N.eqb (key z)) (map key l) = true); [|congruence].
    apply existsb_exists. exists (key w). split; [now apply in_map|].
    now apply N.eqb_eq. }
  destruct Hx as [->|Hx].
  - rewrite N.eqb_refl. f_equal.
    clear IH Hz Hl. induction l as [|w l IHl]; simpl; [reflexivity|].
    rewrite (none w (or_introl eq_refl)). apply IHl.
    intros v Hv. apply none. now right.
  - rewrite N.eqb_sym, (none x Hx). auto.
Qed.

(** ** Consistent states *)

Lemma consistent_checks d :
  consistent d ->
  forallb (fun b => b) (unique_constraints d) = true /\
  forallb (fun b => b) (foreign_keys d) = true.
Proof.
  unfold consistent, violated. intros H.
  destruct (forallb _ (unique_constraints d)); [|discriminate].
  destruct (forallb _ (foreign_keys d)); [|discriminate].
  split; reflexivity.
Qed.

Ltac split_checks H :=
  simpl in H; repeat (apply andb_true_iff in H; destruct H as [? H]).

Lemma pk_user_profiles d :
  consistent d -> distinct N.eqb (map user_profiles.id (user_profiles d)) = true.
Proof. intros H. apply consistent_checks in H as [H _]. split_checks H. assumption. Qed.

Lemma pk_cases d :
  consistent d -> distinct N.eqb (map cases.id (cases d)) = true.
Proof. intros H. apply consistent_checks in H as [H _]. split_checks H. assumption. Qed.

Lemma pk_case_threads d :
  consistent d -> distinct N.eqb (map case_threads.id (case_threads d)) = true.
Proof. intros H. apply consistent_checks in H as [H _]. split_checks H. assumption. Qed.

(** ** The caller's profile *)

Lemma profile_lookup d p :
  consistent d -> In p (user_profiles d) ->
  sql_where (fun q => sql_eq (Some (user_profiles.id q)) (Some (user_profiles.id p)))
            (user_profiles d) = [p].
Proof.
  intros Hc Hp. unfold sql_where.
  rewrite (filter_ext _ (fun q => N.eqb (user_profiles.id q) (user_profiles.id p))).
  - apply filter_by_key; [now apply pk_user_profiles | assumption].
  - intros q. apply sql_true_eq_some.
Qed.

Lemma caller_circles_profile d p :
  consistent d -> In p (user_profiles d) ->
  caller_circles d (Some (user_profiles.id p)) = [user_profiles.circle_id p].
Proof.
  intros Hc Hp. unfold caller_circles. now rewrite profile_lookup.
Qed.

Lemma filter_nil {A} (f : A -> bool) l :
  (forall x, In x l -> f x = false) -> filter f l = [].
Proof.
  induction l as [|x l IH]; simpl; intros H; [reflexivity|].
  rewrite (H x (or_introl eq_refl)). apply IH. intros y Hy. apply H. now right.
Qed.

(** The circles of a logged-in caller: the one of the profile. *)
Lemma caller_circles_logged_in d s p h :
  consistent d -> logged_in s p -> In p (user_profiles d) ->
  user_profiles.circle_id p = Some h ->
  caller_circles d (auth_uid s) = [Some h].
Proof.
  intros Hc [_ Huid] Hp Hh.
  rewrite Huid, caller_circles_profile by assumption. now rewrite Hh.
Qed.

(** Without a profile row the caller has no circle at all. *)
Lemma caller_circles_no_profile d uid :
  (forall p, In p (user_profiles d) -> uid <> Some (user_profiles.id p)) ->
  caller_circles d uid = [].
Proof.
  intros H. unfold caller_circles, sql_where. rewrite filter_nil; [reflexivity|].
  intros p Hp. destruct (sql_true _) eqn:E; [|reflexivity].
  apply sql_true_eq in E. now apply H in E.
Qed.

(** ** What each policy grants to an authenticated session *)

Section Authenticated.
Variable s : session.
Variable d : db.
Hypothesis Hrole : current_user s = authenticated.

Ltac policy_simpl :=
  unfold rls_using, rls_check, bypass_rls, applies; simpl;
  rewrite Hrole; simpl; rewrite ?orb_false_r; reflexivity.

Lemma view_circle c :
  rls_using Select s d t_judicial_circles c
  = sql_true (judicial_circles_select_qual d (auth_uid s) c).
Proof. policy_simpl. Qed.

Lemma view_case c :
  rls_using Select s d t_cases c = sql_true (cases_select_qual d (auth_uid s) c).
Proof. policy_simpl. Qed.

Lemma create_case c :
  rls_check Insert s d t_cases c = sql_true (cases_insert_check d (auth_uid s) c).
Proof. policy_simpl. Qed.

Lemma update_case_using c :
  rls_using Update s d t_cases c = sql_true (cases_update_qual d (auth_uid s) c).
Proof. policy_simpl. Qed.

Lemma update_case_check c :
  rls_check Update s d t_cases c = sql_true (cases_update_qual d (auth_uid s) c).
Proof. policy_simpl. Qed.

Lemma view_thread t :
  rls_using Select s d t_case_threads t
  = sql_true (case_threads_qual d (auth_uid s) t).
Proof. policy_simpl. Qed.

Lemma create_thread t :
  rls_check Insert s d t_case_threads t
  = sql_true (case_threads_qual d (auth_uid s) t).
Proof. policy_simpl. Qed.

Lemma view_message m :
  rls_using Select s d t_case_messages m
  = sql_true (case_messages_qual d (auth_uid s) m).
Proof. policy_simpl. Qed.

Lemma send_message m :
  rls_check Insert s d t_case_messages m
  = sql_true (case_messages_qual d (auth_uid s) m).
Proof. policy_simpl. Qed.

Lemma view_document x :
  rls_using Select s d t_case_documents x
  = sql_true (case_documents_qual d (auth_uid s) x).
Proof. policy_simpl. Qed.

Lemma upload_document x :
  rls_check Insert s d t_case_documents x
  = sql_true (case_documents_qual d (auth_uid s) x).
Proof. policy_simpl. Qed.

Lemma view_audit a :
  rls_using Select s d t_audit_logs a
  = sql_true (audit_logs_select_qual d (auth_uid s) a).
Proof. policy_simpl. Qed.

Lemma insert_audit a : rls_check Insert s d t_audit_logs a = true.
Proof. policy_simpl. Qed.
End Authenticated.

(** The cases view condition, for a caller whose circles are known. *)
Lemma cases_select_qual_entitled d uid c h :
  caller_circles d uid = [Some h] ->
  sql_true (cases_select_qual d uid c) = true <-> In h (entitledCircles d c).
Proof.
  intros Hh. unfold cases_select_qual, collaborating_case_ids, entitledCircles.
  rewrite Hh, sql_true_or, orb_true_iff, !sql_true_in. cbn [In].
  rewrite !in_map_iff. split.
  - intros [[E|[]]|[l [E Hl]]].
    + left. congruence.
    + right. apply sql_where_In in Hl as [Hl Hc]. apply sql_true_in in Hc.
      destruct Hc as [Hc|[]]. exists l. split; [congruence|].
      apply filter_In. split; [assumption|]. apply N.eqb_eq. congruence.
  - intros [E|[l [E Hl]]].
    + left. left. congruence.
    + right. apply filter_In in Hl as [Hl Hc]. apply N.eqb_eq in Hc.
      exists l. split; [congruence|]. apply sql_where_In. split; [assumption|].
      apply sql_true_in. left. congruence.
Qed.

(** The condition the [SELECT] policy of [cases] writes, read over the
    stored tables, is membership of the caller's home circle in the entitled
    circles of the case. *)
Lemma cases_policy_condition d s p h c :
  consistent d -> logged_in s p -> In p (user_profiles d) ->
  user_profiles.circle_id p = Some h ->
  rls_using Select s d t_cases c = true <-> In h (entitledCircles d c).
Proof.
  intros Hc Hlog Hp Hh.
  rewrite view_case by apply Hlog.
  apply cases_select_qual_entitled.
  now apply caller_circles_logged_in with p.
Qed.

(** ** Expanding the policies *)

(** Nothing is expanded for a role that no policy is granted to, nor for
    the owner. *)
Lemma subselects_exempt cs s t :
  current_user s <> authenticated -> subselects_of cs s t = [].
Proof.
  intros H. unfold subselects_of, bypass_rls.
  destruct (current_user s) eqn:R; try congruence; [|reflexivity].
  simpl. induction cs as [|c cs IH]; simpl; [reflexivity|].
  rewrite IH, app_nil_r. unfold applies. rewrite R.
  destruct t; simpl; rewrite ?andb_false_r; reflexivity.
Qed.

Lemma policy_error_exempt cs s t :
  current_user s <> authenticated -> policy_error cs s t = None.
Proof.
  intros H. unfold policy_error, expand_policies.
  now rewrite subselects_exempt.
Qed.

Ltac by_expansion :=
  match goal with
  | s : session |- _ =>
      destruct s as [r u]; simpl; intros; subst r
  end;
  match goal with
  | t : table |- _ => destruct t; try discriminate; reflexivity
  end.

(** For role [authenticated] the [SELECT] policies of the five case tables
    cannot be expanded: those of [case_circles] are reached again from
    inside their own sub-select on [cases]. *)
Lemma policy_error_select s t :
  current_user s = authenticated ->
  policy_error [Select] s t
  = if case_table t then Some (infinite_recursion t_case_circles) else None.
Proof. by_expansion. Qed.

Lemma policy_error_insert s t :
  current_user s = authenticated ->
  policy_error [Insert] s t
  = if case_child t then Some (infinite_recursion t_case_circles) else None.
Proof. by_expansion. Qed.

Lemma policy_error_update_where s t :
  current_user s = authenticated ->
  policy_error [Update; Select] s t
  = if case_table t then Some (infinite_recursion t_case_circles) else None.
Proof. by_expansion. Qed.

Lemma policy_error_delete_where s t :
  current_user s = authenticated ->
  policy_error [Delete; Select] s t
  = if case_table t then Some (infinite_recursion t_case_circles) else None.
Proof. by_expansion. Qed.

(** A statement that reads no column expands the policies of its own
    command only; those of [UPDATE] and [DELETE] read [user_profiles] at
    most. *)
Lemma policy_error_update_set s t : policy_error [Update] s t = None.
Proof. destruct s as [[| |] u]; destruct t; reflexivity. Qed.

Lemma policy_error_delete_all s t : policy_error [Delete] s t = None.
Proof. destruct s as [[| |] u]; destruct t; reflexivity. Qed.

Lemma policy_error_insert_plain s t :
  case_child t = false -> policy_error [Insert] s t = None.
Proof. destruct s as [[| |] u]; destruct t; try discriminate; reflexivity. Qed.

Lemma policy_error_plain_table cs s t :
  case_table t = false -> In cs [[Select]; [Update; Select]; [Delete; Select]] ->
  policy_error cs s t = None.
Proof.
  intros Ht [<-|[<-|[<-|[]]]];
    destruct s as [[| |] u]; destruct t; try discriminate; reflexivity.
Qed.

(** Whenever the policies of a statement expand, the sub-selects they
    contain read [user_profiles] and nothing else. *)
Lemma expanded_policies_read_profiles cs s t q :
  In cs [[Select]; [Insert]; [Update]; [Delete]; [Update; Select]; [Delete; Select]] ->
  policy_error cs s t = None -> In q (subselects_of cs s t) ->
  q = from_user_profiles.
Proof.
  intros Hcs. destruct s as [[| |] u];
    destruct Hcs as [<-|[<-|[<-|[<-|[<-|[<-|[]]]]]]]; destruct t;
      intros E Hq; try discriminate E; simpl in Hq;
      intuition (subst; reflexivity).
Qed.

Lemma filter_filter_implied {A} (f g : A -> bool) l :
  (forall x, f x = true -> g x = true) -> filter f (filter g l) = filter f l.
Proof.
  intros H. induction l as [|x l IH]; simpl; [reflexivity|].
  destruct (g x) eqn:G; simpl; rewrite IH; [reflexivity|].
  destruct (f x) eqn:F; [|reflexivity]. apply H in F. congruence.
Qed.

(** Such a sub-select asks for the caller's own profile, which is what the
    [SELECT] policy of [user_profiles] lets the caller read: run under that
    policy it returns what it returns over the stored rows. *)
Lemma profiles_read_under_own_policy s d cond :
  current_user s = authenticated ->
  (forall p, sql_true (cond p) = true ->
             sql_true (sql_eq (Some (user_profiles.id p)) (auth_uid s)) = true) ->
  sql_where cond (select_from s t_user_profiles d)
  = sql_where cond (user_profiles d).
Proof.
  intros Hrole H. unfold sql_where, select_from. apply filter_filter_implied.
  intros p Hp. apply H in Hp.
  unfold rls_using, bypass_rls, applies. simpl. rewrite Hrole. simpl.
  unfold using_of, user_profiles_own_qual. simpl.
  rewrite ?orb_false_r. exact Hp.
Qed.

(** C1.  A [SELECT] on [cases] by the role [authenticated] returns no row
    and no verdict on any: whatever the database and whatever the caller's
    profile and circle, it fails while its policy is expanded, with
    [infinite recursion detected in policy for relation case_circles]. *)
Theorem case_view_raises_recursion d s :
  current_user s = authenticated ->
  query s t_cases d = Error (infinite_recursion t_case_circles) /\
  forall c, can_view s t_cases c d = Error (infinite_recursion t_case_circles).
Proof.
  intros Hrole. unfold query, can_view.
  rewrite policy_error_select by assumption. split; reflexivity.
Qed.

(** ** Inheritance below a case *)

(** No policy is granted to [anon]. *)
Lemma anon_sees_nothing s d c t r :
  current_user s = anon -> rls_using c s d t r = false.
Proof.
  intros H. unfold rls_using, bypass_rls, applies. rewrite H.
  destruct t; simpl; rewrite ?andb_false_r; reflexivity.
Qed.

Lemma anon_writes_nothing s d c t r :
  current_user s = anon -> rls_check c s d t r = false.
Proof.
  intros H. unfold rls_check, bypass_rls, applies. rewrite H.
  destruct t; simpl; rewrite ?andb_false_r; reflexivity.
Qed.

Lemma owner_sees_all s d c t r :
  current_user s = table_owner -> rls_using c s d t r = true.
Proof. intros H. unfold rls_using, bypass_rls. rewrite H. reflexivity. Qed.

Lemma owner_writes_all s d c t r :
  current_user s = table_owner -> rls_check c s d t r = true.
Proof. intros H. unfold rls_check, bypass_rls. rewrite H. reflexivity. Qed.

(** What a [SELECT] on one of the case tables says of a row, role by role:
    nothing to [anon], an error to [authenticated], the row to the owner. *)
Lemma can_view_case_table s t r d :
  case_table t = true ->
  can_view s t r d
  = match current_user s with
    | anon => Ok false
    | authenticated => Error (infinite_recursion t_case_circles)
    | table_owner => Ok true
    end.
Proof.
  intros Ht. unfold can_view. destruct (current_user s) eqn:R.
  - rewrite policy_error_exempt by congruence. now rewrite anon_sees_nothing.
  - rewrite policy_error_select by assumption. now rewrite Ht.
  - rewrite policy_error_exempt by congruence. now rewrite owner_sees_all.
Qed.

(** C5.  For a message of a stored thread of a stored case, a [SELECT] on
    [case_messages] says of the message what a [SELECT] on [cases] says of
    the case, for every session: no row for [anon], the same error for
    [authenticated], the row for the owner. *)
Theorem message_view_inherits_case d s m t c :
  consistent d -> In t (case_threads d) -> In c (cases d) ->
  case_messages.thread_id m = case_threads.id t ->
  case_threads.case_id t = cases.id c ->
  can_view s t_case_messages m d = can_view s t_cases c d /\
  can_view s t_cases c d
  = match current_user s with
    | anon => Ok false
    | authenticated => Error (infinite_recursion t_case_circles)
    | table_owner => Ok true
    end.
Proof.
  intros _ _ _ _ _. now rewrite !can_view_case_table.
Qed.

(** ** The circle a judge or clerk acts in *)

(** All the circles the caller holds as judge or clerk are the same one. *)
Lemma judge_or_clerk_circle_unique d uid a b :
  consistent d ->
  In (Some a) (caller_circles_as_judge_or_clerk d uid) ->
  In (Some b) (caller_circles_as_judge_or_clerk d uid) -> a = b.
Proof.
  unfold caller_circles_as_judge_or_clerk. intros Hc Ha Hb.
  apply in_map_iff in Ha as [p [Ea Hp]], Hb as [q [Eb Hq]].
  apply sql_where_In in Hp as [Hp Hpq], Hq as [Hq Hqq].
  rewrite sql_true_and in Hpq, Hqq.
  apply andb_true_iff in Hpq as [Hpq _], Hqq as [Hqq _].
  apply sql_true_eq in Hpq, Hqq.
  assert (p = q) as ->.
  { apply (unique_key user_profiles.id (user_profiles d)); auto using pk_user_profiles.
    congruence. }
  congruence.
Qed.

Lemma judge_or_clerk_circle_profile d p h :
  consistent d -> In p (user_profiles d) ->
  In (Some h) (caller_circles_as_judge_or_clerk d (Some (user_profiles.id p))) ->
  user_profiles.circle_id p = Some h.
Proof.
  unfold caller_circles_as_judge_or_clerk. intros Hc Hp Hh.
  apply in_map_iff in Hh as [q [E Hq]]. apply sql_where_In in Hq as [Hq Hqq].
  rewrite sql_true_and in Hqq. apply andb_true_iff in Hqq as [Hqq _].
  apply sql_true_eq in Hqq.
  assert (q = p) as ->; [|assumption].
  apply (unique_key user_profiles.id (user_profiles d)); auto using pk_user_profiles.
  congruence.
Qed.

(** ** What a statement can do under row security *)

Lemma restricted_role s :
  restricted s -> current_user s = anon \/ current_user s = authenticated.
Proof.
  unfold restricted, bypass_rls. destruct (current_user s); auto. discriminate.
Qed.

Ltac by_role s H :=
  let R := fresh "Hrole" in
  destruct (restricted_role s H) as [R|R];
  [ solve [rewrite ?anon_sees_nothing, ?anon_writes_nothing by assumption; reflexivity]
  | unfold rls_using, rls_check, applies; rewrite H, R; reflexivity ].

(** No policy is declared [FOR DELETE], on any table. *)
Lemma no_delete s d t r : restricted s -> rls_using Delete s d t r = false.
Proof. intros H. destruct t; by_role s H. Qed.

Lemma no_update s d t r :
  restricted s -> update_policy t = false -> rls_using Update s d t r = false.
Proof. intros H Ht. destruct t; try discriminate; by_role s H. Qed.

Lemma no_insert s d t r :
  restricted s -> insert_policy t = false -> rls_check Insert s d t r = false.
Proof. intros H Ht. destruct t; try discriminate; by_role s H. Qed.

Lemma insert_link_needs_bypass s d l :
  rls_check Insert s d t_case_circles l = bypass_rls s.
Proof.
  unfold rls_check, applies. simpl. now rewrite !orb_false_r.
Qed.

Lemma exec_insert_plain s t r d :
  case_child t = false ->
  exec s (INSERT t r) d
  = if rls_check Insert s d t r
    then commit (set_rows t (rows t d ++ [r]) d)
    else Error insufficient_privilege.
Proof. intros Ht. unfold exec. now rewrite policy_error_insert_plain. Qed.

(** C2, amended.  For every session under row security, whatever the role
    and circle of the caller, adding a row to [case_circles] is denied:
    the table has no [INSERT] policy, and the statement fails. *)
Theorem manage_collaboration_denied s d l :
  restricted s ->
  rls_check Insert s d t_case_circles l = false /\
  exec s (INSERT t_case_circles l) d = Error insufficient_privilege.
Proof.
  intros H. assert (E : rls_check Insert s d t_case_circles l = false).
  { now apply no_insert. }
  split; [assumption|]. rewrite exec_insert_plain by reflexivity. now rewrite E.
Qed.

Lemma set_rows_same t d : set_rows t (rows t d) d = d.
Proof. destruct t, d; reflexivity. Qed.

Lemma filter_all {A} (f : A -> bool) l :
  (forall x, In x l -> f x = true) -> filter f l = l.
Proof.
  induction l as [|x l IH]; simpl; intros H; [reflexivity|].
  rewrite (H x (or_introl eq_refl)). f_equal. apply IH. intros y Hy. apply H. now right.
Qed.

Lemma map_unhit {A} (hit : A -> bool) (f : A -> A) l :
  (forall x, In x l -> hit x = false) ->
  map (fun x => if hit x then f x else x) l = l.
Proof.
  induction l as [|x l IH]; simpl; intros H; [reflexivity|].
  rewrite (H x (or_introl eq_refl)). f_equal. apply IH. intros y Hy. apply H. now right.
Qed.

Lemma cascade_nothing t d : cascade t [] d = d.
Proof.
  destruct t; try reflexivity; unfold cascade; simpl.
  - rewrite (filter_nil (fun x => mem (case_threads.case_id x) [])) by reflexivity.
    simpl. rewrite !filter_all by reflexivity. now destruct d.
  - rewrite filter_all by reflexivity. now destruct d.
Qed.

Lemma commit_ok d d' : commit d = Ok d' -> d' = d /\ consistent d.
Proof.
  unfold commit, consistent. destruct (violated d); [discriminate|].
  intros E. injection E as <-. auto.
Qed.

(** A statement that hits no row leaves the state as it is. *)
Lemma update_rows_unhit t hit check set_ d :
  (forall r, In r (rows t d) -> hit r = false) ->
  update_rows t hit check set_ d = commit d.
Proof.
  intros H. unfold update_rows. rewrite filter_nil, map_unhit by assumption.
  simpl. now rewrite set_rows_same.
Qed.

Lemma delete_rows_unhit t hit d :
  (forall r, In r (rows t d) -> hit r = false) ->
  delete_rows t hit d = commit d.
Proof.
  intros H. unfold delete_rows. rewrite filter_nil by assumption.
  rewrite filter_all by (intros r Hr; now rewrite H).
  simpl. now rewrite set_rows_same, cascade_nothing.
Qed.

Lemma restricted_delete s t where_ d :
  restricted s ->
  exec s (DELETE t where_) d
  = match policy_error [Delete; Select] s t with
    | Some e => Error e
    | None => commit d
    end.
Proof.
  intros H. unfold exec. destruct (policy_error _ _ _); [reflexivity|].
  apply delete_rows_unhit. intros r _.
  now rewrite no_delete, andb_false_r.
Qed.

Lemma restricted_delete_all s t d :
  restricted s -> exec s (DELETE_ALL t) d = commit d.
Proof.
  intros H. unfold exec. rewrite policy_error_delete_all.
  apply delete_rows_unhit. intros r _. now apply no_delete.
Qed.

Lemma restricted_update_without_policy s t where_ set_ d :
  restricted s -> update_policy t = false ->
  exec s (UPDATE t where_ set_) d
  = match policy_error [Update; Select] s t with
    | Some e => Error e
    | None => commit d
    end.
Proof.
  intros H Ht. unfold exec. destruct (policy_error _ _ _); [reflexivity|].
  apply update_rows_unhit. intros r _.
  now rewrite no_update, andb_false_r.
Qed.

Lemma restricted_update_set_without_policy s t set_ d :
  restricted s -> update_policy t = false ->
  exec s (UPDATE_SET t set_) d = commit d.
Proof.
  intros H Ht. unfold exec. rewrite policy_error_update_set.
  apply update_rows_unhit. intros r _. now apply no_update.
Qed.

(** An [UPDATE] of [cases] with a [WHERE], under row security: an error for
    [authenticated], no row hit for [anon]. *)
Lemma restricted_update_cases_where s where_ set_ d d' :
  restricted s -> exec s (UPDATE t_cases where_ set_) d = Ok d' -> d' = d.
Proof.
  intros H Hs. destruct (restricted_role s H) as [Hrole|Hrole].
  - unfold exec in Hs. rewrite policy_error_exempt in Hs by congruence.
    rewrite update_rows_unhit in Hs; [now apply commit_ok in Hs|].
    intros r _. now rewrite !anon_sees_nothing, andb_false_r.
  - unfold exec in Hs. rewrite policy_error_update_where in Hs by assumption.
    discriminate.
Qed.

Lemma update_rows_ok t hit check set_ d d' :
  update_rows t hit check set_ d = Ok d' ->
  forallb (fun r => check (set_ r)) (filter hit (rows t d)) = true /\
  d' = set_rows t (map (fun r => if hit r then set_ r else r) (rows t d)) d /\
  consistent d'.
Proof.
  unfold update_rows. destruct (forallb _ _); [|discriminate].
  intros H. apply commit_ok in H as [-> H]. auto.
Qed.



(** The state a successful request of a session under row security leaves:
    the same state, or one more case, or one more audit entry, or rewritten
    profiles, or cases rewritten by an [UPDATE] without [WHERE], or one
    more user. *)
Lemma restricted_serve s q d d' :
  restricted s -> serve s q d = Ok d' ->
  d' = d
  \/ (exists c, d' = set_rows t_cases (cases d ++ [c]) d)
  \/ (exists a, d' = set_rows t_audit_logs (audit_logs d ++ [a]) d)
  \/ (exists hit set_,
        (forall r, hit r = true -> rls_using Update s d t_user_profiles r = true)
        /\ (forall r, In r (user_profiles d) -> hit r = true ->
                      rls_check Update s d t_user_profiles (set_ r) = true)
        /\ d' = set_rows t_user_profiles
                  (map (fun r => if hit r then set_ r else r) (user_profiles d)) d)
  \/ (exists set_,
        let hit := rls_using Update s d t_cases in
        forallb (fun r => rls_check Update s d t_cases (cases.assign set_ r))
                (filter hit (cases d)) = true
        /\ d' = set_rows t_cases
                  (map (fun r => if hit r then cases.assign set_ r else r)
                       (cases d)) d)
  \/ (exists u, d' = add_user u d).
Proof.
  intros H Hs. destruct q as [st | a rt rid det u n | NEW]; simpl in Hs.
  - destruct st as [t new | t w f | t w | t a | t].
    + (* INSERT *)
      unfold exec in Hs. destruct (policy_error [Insert] s t) eqn:P; [discriminate|].
      destruct (rls_check Insert s d t new) eqn:E; [|discriminate].
      apply commit_ok in Hs as [-> _].
      destruct (insert_policy t) eqn:I.
      2:{ rewrite no_insert in E by assumption. discriminate. }
      destruct (restricted_role s H) as [Hrole|Hrole].
      { rewrite anon_writes_nothing in E by assumption. discriminate. }
      rewrite policy_error_insert in P by assumption.
      destruct t; try discriminate.
      * right; left. now exists new.
      * right; right; left. now exists new.
    + (* UPDATE ... WHERE *)
      destruct (update_policy t) eqn:P.
      * destruct t; try discriminate.
        -- unfold exec in Hs.
           destruct (policy_error _ _ _); [discriminate|].
           apply update_rows_ok in Hs as [F [-> _]].
           right; right; right; left.
           eexists. exists f. split; [|split; [|reflexivity]].
           ++ intros r Hr. cbv beta in Hr.
              apply andb_true_iff in Hr as [Hr _].
              now apply andb_true_iff in Hr as [_ Hr].
           ++ intros r Hin Hr. rewrite forallb_forall in F.
              specialize (F r). cbv beta in F.
              rewrite filter_In in F. specialize (F (conj Hin Hr)).
              now apply andb_true_iff in F as [F _].
        -- left. now apply (restricted_update_cases_where s w f d).
      * rewrite restricted_update_without_policy in Hs by assumption.
        destruct (policy_error _ _ _); [discriminate|].
        apply commit_ok in Hs as [-> _]. now left.
    + (* DELETE ... WHERE *)
      rewrite restricted_delete in Hs by assumption.
      destruct (policy_error _ _ _); [discriminate|].
      apply commit_ok in Hs as [-> _]. now left.
    + (* UPDATE without WHERE *)
      destruct (update_policy t) eqn:P.
      * destruct t; try discriminate; unfold exec in Hs;
          rewrite policy_error_update_set in Hs;
          apply update_rows_ok in Hs as [F [-> _]].
        -- right; right; right; left.
           exists (rls_using Update s d t_user_profiles), (user_profiles.assign a).
           split; [auto|]. split; [|reflexivity].
           intros r Hin Hr. rewrite forallb_forall in F. apply F.
           now apply filter_In.
        -- right; right; right; right; left. exists a. now split.
      * rewrite restricted_update_set_without_policy in Hs by assumption.
        apply commit_ok in Hs as [-> _]. now left.
    + (* DELETE without WHERE *)
      rewrite restricted_delete_all in Hs by assumption.
      apply commit_ok in Hs as [-> _]. now left.
  - unfold log_audit_event, exec in Hs.
    destruct (policy_error _ _ _); [discriminate|].
    destruct (rls_check _ _ _ _ _); [|discriminate].
    apply commit_ok in Hs as [-> _]. right; right; left.
    eexists. reflexivity.
  - apply commit_ok in Hs as [-> _]. do 5 right. now exists NEW.
Qed.

(** No request of a session under row security changes [case_circles],
    [case_threads], [case_messages] or [case_documents]. *)
Lemma case_children_frozen s q d d' :
  restricted s -> serve s q d = Ok d' ->
  case_circles d' = case_circles d /\ case_threads d' = case_threads d /\
  case_messages d' = case_messages d /\ case_documents d' = case_documents d.
Proof.
  intros H Hs.
  destruct (restricted_serve s q d d' H Hs)
    as [-> | [[c ->] | [[a ->] | [[hit [f [_ [_ ->]]]] | [[a [_ ->]] | [u ->]]]]]];
    repeat split.
Qed.

Lemma case_circles_frozen s q d d' :
  restricted s -> serve s q d = Ok d' -> case_circles d' = case_circles d.
Proof. intros H Hs. now apply (case_children_frozen s q d d'). Qed.

(** ** Update against view *)

(** C6.  For a member of a circle that is linked to a case in
    [case_circles] and is not its primary circle, a [SELECT] says nothing
    of the case: it fails while the policy is expanded.  The [UPDATE] policy
    does not expose the case to that member: an [UPDATE] with a [WHERE]
    fails in the same way, and one without leaves the row as it is. *)
Theorem collaborator_view_raises_update_denied d s p h c l :
  consistent d -> logged_in s p -> In p (user_profiles d) ->
  user_profiles.circle_id p = Some h ->
  In l (case_circles d) -> case_circles.case_id l = cases.id c ->
  case_circles.circle_id l = h -> h <> cases.primary_circle_id c ->
  can_view s t_cases c d = Error (infinite_recursion t_case_circles) /\
  rls_using Update s d t_cases c = false /\
  (forall where_ set_,
     exec s (UPDATE t_cases where_ set_) d
     = Error (infinite_recursion t_case_circles)) /\
  (forall set_ d',
     In c (cases d) -> exec s (UPDATE_SET t_cases set_) d = Ok d' ->
     In c (cases d')).
Proof.
  intros Hc Hlog Hp Hh Hl Ecase Ecircle Hne.
  assert (Hupd : rls_using Update s d t_cases c = false).
  { destruct Hlog as [Hrole Huid].
    rewrite update_case_using by assumption. rewrite Huid.
    destruct (sql_true _) eqn:E; [|reflexivity].
    unfold cases_update_qual in E. apply sql_true_in in E.
    apply judge_or_clerk_circle_profile in E; try assumption. congruence. }
  destruct Hlog as [Hrole Huid].
  split; [|split; [assumption|split]].
  - rewrite can_view_case_table by reflexivity. now rewrite Hrole.
  - intros w f. unfold exec. now rewrite policy_error_update_where by assumption.
  - intros a d' Hin Hex. unfold exec in Hex.
    rewrite policy_error_update_set in Hex.
    apply update_rows_ok in Hex as [_ [-> _]]. simpl.
    apply in_map_iff. exists c. split; [|assumption].
    now rewrite Hupd.
Qed.

(** ** Audit log *)

(** C7.  An authenticated caller with a profile sees the rows of
    [audit_logs] exactly when the role of the profile is [judge], whatever
    the circle of the profile and whatever the row. *)
Theorem audit_view_iff_judge d s p a :
  consistent d -> logged_in s p -> In p (user_profiles d) ->
  rls_using Select s d t_audit_logs a = true <-> user_profiles.role p = judge.
Proof.
  intros Hc [Hrole Huid] Hp.
  rewrite view_audit by assumption. rewrite Huid.
  unfold audit_logs_select_qual. rewrite sql_exists_true. split.
  - intros [q Hq]. apply sql_where_In in Hq as [Hq Hqq].
    rewrite sql_true_and in Hqq. apply andb_true_iff in Hqq as [Hid Hj].
    apply sql_true_eq in Hid.
    assert (q = p) as ->.
    { apply (unique_key user_profiles.id (user_profiles d)); auto using pk_user_profiles.
      congruence. }
    now apply sql_true_role_eq.
  - intros Hj. exists p. apply sql_where_In. split; [assumption|].
    rewrite sql_true_and, sql_true_eq_some, N.eqb_refl. simpl.
    now apply sql_true_role_eq.
Qed.

(** ** Callers without a home circle *)

Lemma no_home_circle_values d s :
  consistent d -> no_home_circle d s ->
  forall y, In y (caller_circles d (auth_uid s)) -> y = None.
Proof.
  intros Hc [Hnone | [p [Hp [Huid Hnull]]]] y Hy.
  - rewrite caller_circles_no_profile in Hy by assumption. destruct Hy.
  - rewrite Huid, caller_circles_profile in Hy by assumption.
    destruct Hy as [<-|[]]. assumption.
Qed.

Section NoCircle.
Variables (d : db) (uid : option uuid).
Hypothesis Hnull : forall y, In y (caller_circles d uid) -> y = None.

Lemma no_circle_no_case c : sql_true (cases_select_qual d uid c) = false.
Proof.
  unfold cases_select_qual, collaborating_case_ids.
  rewrite sql_true_or, sql_in_no_value by assumption.
  unfold sql_where. rewrite filter_nil; [reflexivity|].
  intros l _. now apply sql_in_no_value.
Qed.

Lemma no_circle_no_accessible_case : accessible_case_ids d uid = [].
Proof.
  unfold accessible_case_ids, sql_where. rewrite filter_nil; [reflexivity|].
  intros c _. apply no_circle_no_case.
Qed.

Lemma no_circle_no_thread t : sql_true (case_threads_qual d uid t) = false.
Proof. unfold case_threads_qual. now rewrite no_circle_no_accessible_case. Qed.

Lemma no_circle_no_document x : sql_true (case_documents_qual d uid x) = false.
Proof. unfold case_documents_qual. now rewrite no_circle_no_accessible_case. Qed.

Lemma no_circle_no_message m : sql_true (case_messages_qual d uid m) = false.
Proof.
  unfold case_messages_qual, accessible_thread_ids, sql_where.
  rewrite filter_nil; [reflexivity|].
  intros t _. apply no_circle_no_thread.
Qed.
End NoCircle.

(** Creating a case asks for a profile with role judge or clerk and for
    nothing else. *)
Lemma create_case_iff_role d s c :
  current_user s = authenticated ->
  rls_check Insert s d t_cases c = true
  <-> exists p, In p (user_profiles d)
                /\ auth_uid s = Some (user_profiles.id p)
                /\ In (user_profiles.role p) [judge; clerk].
Proof.
  intros Hrole. rewrite create_case by assumption.
  unfold cases_insert_check. rewrite sql_exists_true.
  split; intros [p Hp]; exists p.
  - apply sql_where_In in Hp as [Hp Hq]. rewrite sql_true_and in Hq.
    apply andb_true_iff in Hq as [Hid Hr].
    apply sql_true_eq in Hid. apply sql_true_role_in in Hr. auto.
  - destruct Hp as [Hp [Hid Hr]]. apply sql_where_In. split; [assumption|].
    rewrite sql_true_and. apply andb_true_iff. split.
    + now apply sql_true_eq.
    + now apply sql_true_role_in.
Qed.

(** C10, amended.  An authenticated caller with no profile row, or with a
    profile whose home circle is NULL, is denied view of every case, thread,
    message and document, and denied creation of every thread, message and
    document.  Creation of a case depends on the role alone: it is denied
    without a profile and granted to a judge or clerk even when the profile
    has no home circle. *)
Theorem no_home_circle_denied d s :
  consistent d -> current_user s = authenticated -> no_home_circle d s ->
  (forall c, rls_using Select s d t_cases c = false) /\
  (forall t, rls_using Select s d t_case_threads t = false
             /\ rls_check Insert s d t_case_threads t = false) /\
  (forall m, rls_using Select s d t_case_messages m = false
             /\ rls_check Insert s d t_case_messages m = false) /\
  (forall x, rls_using Select s d t_case_documents x = false
             /\ rls_check Insert s d t_case_documents x = false) /\
  (forall c, rls_check Insert s d t_cases c = true
             <-> exists p, In p (user_profiles d)
                           /\ auth_uid s = Some (user_profiles.id p)
                           /\ In (user_profiles.role p) [judge; clerk]).
Proof.
  intros Hc Hrole Hno.
  pose proof (no_home_circle_values d s Hc Hno) as Hnull.
  split; [|split; [|split; [|split]]].
  - intros c. rewrite view_case by assumption. now apply no_circle_no_case.
  - intros t. rewrite view_thread, create_thread by assumption.
    split; now apply no_circle_no_thread.
  - intros m. rewrite view_message, send_message by assumption.
    split; now apply no_circle_no_message.
  - intros x. rewrite view_document, upload_document by assumption.
    split; now apply no_circle_no_document.
  - intros c. now apply create_case_iff_role.
Qed.
(** ** Messages *)

(** C9, amended.  [case_messages] has [SELECT] and [INSERT] policies only.
    For a session under row security no stored message is exposed to
    [UPDATE] or to [DELETE]; a statement of either kind on the table leaves
    the database as it was (with a [WHERE] it is an error for the role
    [authenticated]), and after any successful request the table of
    messages is what it was: a message can be neither edited nor deleted. *)
Theorem messages_neither_edited_nor_deleted s d :
  restricted s ->
  (forall m, rls_using Update s d t_case_messages m = false
             /\ rls_using Delete s d t_case_messages m = false) /\
  (forall where_ set_,
     state_after d (exec s (UPDATE t_case_messages where_ set_) d) = d) /\
  (forall set_, state_after d (exec s (UPDATE_SET t_case_messages set_) d) = d) /\
  (forall where_, state_after d (exec s (DELETE t_case_messages where_) d) = d) /\
  state_after d (exec s (DELETE_ALL t_case_messages) d) = d /\
  (current_user s = authenticated ->
   forall where_,
     (forall set_, exec s (UPDATE t_case_messages where_ set_) d
                   = Error (infinite_recursion t_case_circles)) /\
     exec s (DELETE t_case_messages where_) d
     = Error (infinite_recursion t_case_circles)) /\
  (forall q d', serve s q d = Ok d' -> case_messages d' = case_messages d).
Proof.
  intros H.
  assert (same : forall r, r = commit d -> state_after d r = d).
  { intros r ->. unfold commit. now destruct (violated d). }
  split; [|split; [|split; [|split; [|split; [|split]]]]].
  - intros m. split; [now apply no_update | now apply no_delete].
  - intros w f. rewrite restricted_update_without_policy by (assumption || reflexivity).
    destruct (policy_error _ _ _); [reflexivity | now apply same].
  - intros a. apply same. now apply restricted_update_set_without_policy.
  - intros w. rewrite restricted_delete by assumption.
    destruct (policy_error _ _ _); [reflexivity | now apply same].
  - apply same. now apply restricted_delete_all.
  - intros Hrole w. unfold exec.
    rewrite policy_error_update_where, policy_error_delete_where by assumption.
    split; reflexivity.
  - intros q d' Hs. now apply (case_children_frozen s q d d').
Qed.

(** ** Keeping the constraints *)

Ltac db_proj :=
  cbn [set_rows rows add_user auth_users judicial_circles user_profiles cases
       case_circles case_threads case_messages case_documents audit_logs].

Ltac db_proj_in H :=
  cbn [set_rows rows add_user auth_users judicial_circles user_profiles cases
       case_circles case_threads case_messages case_documents audit_logs] in H.

(** One goal for each constraint of the list [Hb] ranges over. *)
Ltac each_check Hb :=
  repeat (destruct Hb as [<-|Hb]); try (now destruct Hb).

Ltac old_check U :=
  apply U; unfold unique_constraints, foreign_keys; simpl; tauto.

Lemma commit_consistent d : consistent d -> commit d = Ok d.
Proof. unfold consistent, commit. now intros ->. Qed.

Lemma consistent_intro d :
  forallb (fun b => b) (unique_constraints d) = true ->
  forallb (fun b => b) (foreign_keys d) = true -> consistent d.
Proof. unfold consistent, violated. now intros -> ->. Qed.

Lemma in_non_null {A} (x : A) l : In x (non_null l) <-> In (Some x) l.
Proof.
  induction l as [|[y|] l IH]; simpl.
  - tauto.
  - rewrite IH. split; intros [E|H]; auto; left; congruence.
  - rewrite IH. split; [auto | intros [E|H]; [discriminate | assumption]].
Qed.

Lemma all_in_spec keys parents :
  all_in keys parents = true <-> forall k, In k keys -> In k parents.
Proof.
  unfold all_in. rewrite forallb_forall. split; intros H k Hk.
  - apply H in Hk. apply existsb_exists in Hk as [y [Hy E]].
    apply N.eqb_eq in E. now subst.
  - apply existsb_exists. exists k. split; [auto | apply N.eqb_refl].
Qed.

Lemma all_in_more keys parents x :
  all_in keys parents = true -> all_in keys (parents ++ [x]) = true.
Proof.
  rewrite !all_in_spec. intros H k Hk. apply in_or_app. left. now apply H.
Qed.

Lemma all_in_snoc keys parents k :
  all_in keys parents = true -> In k parents ->
  all_in (keys ++ [k]) parents = true.
Proof.
  rewrite !all_in_spec. intros H Hk x Hx.
  apply in_app_or in Hx as [Hx|[<-|[]]]; auto.
Qed.

Lemma all_in_non_null_snoc keys parents k :
  all_in (non_null keys) parents = true ->
  (forall x, k = Some x -> In x parents) ->
  all_in (non_null (keys ++ [k])) parents = true.
Proof.
  rewrite !all_in_spec. intros H Hk x Hx.
  apply in_non_null in Hx. apply in_app_or in Hx as [Hx|[->|[]]].
  - apply H. now apply in_non_null.
  - now apply Hk.
Qed.

Lemma distinct_snoc {A} (eqb : A -> A -> bool) l x :
  (forall a b, eqb a b = eqb b a) ->
  distinct eqb (l ++ [x]) = distinct eqb l && negb (existsb (eqb x) l).
Proof.
  intros Hsym. induction l as [|y l IH]; simpl; [reflexivity|].
  rewrite IH, existsb_app. simpl. rewrite (Hsym x y), orb_false_r.
  destruct (eqb y x), (existsb (eqb y) l), (distinct eqb l), (existsb (eqb x) l);
    reflexivity.
Qed.

Lemma pair_eqb_sym a b : pair_eqb a b = pair_eqb b a.
Proof. unfold pair_eqb. now rewrite (N.eqb_sym (fst a)), (N.eqb_sym (snd a)). Qed.

Lemma pair_eqb_refl a : pair_eqb a a = true.
Proof. unfold pair_eqb. now rewrite !N.eqb_refl. Qed.

Lemma fresh_not_mem x l : ~ In x l -> existsb (N.eqb x) l = false.
Proof.
  intros H. destruct (existsb (N.eqb x) l) eqn:E; [|reflexivity].
  apply existsb_exists in E as [y [Hy E]]. apply N.eqb_eq in E. now subst.
Qed.

Lemma fresh_string_not_mem x l : ~ In x l -> existsb (String.eqb x) l = false.
Proof.
  intros H. destruct (existsb (String.eqb x) l) eqn:E; [|reflexivity].
  apply existsb_exists in E as [y [Hy E]]. apply String.eqb_eq in E. now subst.
Qed.

Lemma violated_unique d :
  In false (unique_constraints d) -> violated d = Some unique_violation.
Proof.
  intros H. unfold violated.
  assert (E : forallb (fun b => b) (unique_constraints d) = false).
  { destruct (forallb _ _) eqn:E; [|reflexivity].
    rewrite forallb_forall in E. now apply E in H. }
  now rewrite E.
Qed.

Lemma violated_foreign_key d :
  forallb (fun b => b) (unique_constraints d) = true ->
  In false (foreign_keys d) -> violated d = Some foreign_key_violation.
Proof.
  intros U H.
  assert (E : forallb (fun b => b) (foreign_keys d) = false).
  { destruct (forallb (fun b => b) (foreign_keys d)) eqn:E; [|reflexivity].
    rewrite forallb_forall in E. now apply E in H. }
  unfold violated. now rewrite U, E.
Qed.

(** A new audit row with a fresh id, stamped with no user or with a user
    of [auth.users], breaks no constraint. *)
Lemma audit_row_consistent d a :
  consistent d -> ~ In (audit_logs.id a) (map audit_logs.id (audit_logs d)) ->
  (forall x, audit_logs.user_id a = Some x -> In x (auth_users d)) ->
  commit (set_rows t_audit_logs (audit_logs d ++ [a]) d)
  = Ok (set_rows t_audit_logs (audit_logs d ++ [a]) d).
Proof.
  intros Hc Hfresh Huser. apply commit_consistent.
  destruct (consistent_checks d Hc) as [U F]. rewrite forallb_forall in U, F.
  apply consistent_intro; apply forallb_forall; intros b Hb.
  - unfold unique_constraints in Hb. db_proj_in Hb. each_check Hb; try old_check U.
    rewrite map_app. simpl map. rewrite distinct_snoc by apply N.eqb_sym.
    rewrite fresh_not_mem by assumption. rewrite andb_true_r. old_check U.
  - unfold foreign_keys in Hb. db_proj_in Hb. each_check Hb; try old_check F.
    rewrite map_app. simpl map. apply all_in_non_null_snoc; [old_check F | assumption].
Qed.

(** ** Entitlement over time *)







(** ** Writing the audit log *)

(** C3, amended.  [log_audit_event] asks for no authorization: whatever the
    role of the session ([anon] included) and whatever the stored profiles,
    it appends its row, stamped with [auth.uid()], NULL when there is no
    token.  A direct [INSERT] passes for every session of role
    [authenticated], by [WITH CHECK (true)], and for the owner, and is
    refused to [anon], to which the policy is not granted.  The premises are
    those of any insertion: a state that keeps its constraints, a fresh
    primary key, and a [user_id] that is NULL or names a user. *)
Theorem audit_write_paths s d act rt rid det u ts :
  consistent d -> ~ In u (map audit_logs.id (audit_logs d)) ->
  (forall x, auth_uid s = Some x -> In x (auth_users d)) ->
  (exists a, log_audit_event s act rt rid det u ts d
             = Ok (set_rows t_audit_logs (audit_logs d ++ [a]) d)
             /\ audit_logs.id a = u
             /\ audit_logs.user_id a = auth_uid s
             /\ audit_logs.action a = act
             /\ audit_logs.resource_type a = rt
             /\ audit_logs.resource_id a = rid) /\
  (forall a, audit_logs.id a = u ->
             (forall x, audit_logs.user_id a = Some x -> In x (auth_users d)) ->
             rls_check Insert s d t_audit_logs a
             = negb (pg_role_eqb (current_user s) anon) /\
             exec s (INSERT t_audit_logs a) d
             = match current_user s with
               | anon => Error insufficient_privilege
               | _ => Ok (set_rows t_audit_logs (audit_logs d ++ [a]) d)
               end).
Proof.
  intros Hc Hfresh Htoken. split.
  - eexists. split.
    + unfold log_audit_event. rewrite exec_insert_plain by reflexivity.
      rewrite owner_writes_all by reflexivity.
      apply audit_row_consistent; assumption.
    + simpl. auto.
  - intros a Ha Huser. subst u.
    assert (E : rls_check Insert s d t_audit_logs a
                = negb (pg_role_eqb (current_user s) anon)).
    { destruct (current_user s) eqn:R.
      - now apply anon_writes_nothing.
      - now apply insert_audit.
      - now apply owner_writes_all. }
    split; [assumption|]. rewrite exec_insert_plain, E by reflexivity.
    destruct (current_user s); simpl; try reflexivity;
      now apply audit_row_consistent.
Qed.

(** ** Adding the same link twice *)

(** C4, amended.  When a link has been inserted into [case_circles], a
    second insertion for the same case and circle by the same session is
    rejected with a uniqueness violation; the state stays as the first
    insertion left it, so the entitled circles of every case are those after
    a single insertion, and they contain the linked circle. *)
Theorem repeated_link_rejected s d d1 l1 l2 :
  exec s (INSERT t_case_circles l1) d = Ok d1 ->
  case_link_key l2 = case_link_key l1 ->
  exec s (INSERT t_case_circles l2) d1 = Error unique_violation /\
  (forall c, entitledCircles
               (state_after d1 (exec s (INSERT t_case_circles l2) d1)) c
             = entitledCircles d1 c) /\
  (forall c, cases.id c = case_circles.case_id l1 ->
             In (case_circles.circle_id l1) (entitledCircles d1 c)).
Proof.
  intros H1 Ekey. rewrite exec_insert_plain in H1 by reflexivity.
  destruct (rls_check Insert s d t_case_circles l1) eqn:R1; [|discriminate].
  rewrite insert_link_needs_bypass in R1.
  apply commit_ok in H1 as [-> Hc1].
  assert (E2 : exec s (INSERT t_case_circles l2)
                    (set_rows t_case_circles (rows t_case_circles d ++ [l1]) d)
               = Error unique_violation).
  { rewrite exec_insert_plain by reflexivity.
    rewrite insert_link_needs_bypass, R1.
    unfold commit. rewrite violated_unique; [reflexivity|].
    unfold unique_constraints. do 6 right. left.
    change (distinct pair_eqb
              (map case_link_key ((case_circles d ++ [l1]) ++ [l2])) = false).
    rewrite map_app. change (map case_link_key [l2]) with [case_link_key l2].
    rewrite distinct_snoc by apply pair_eqb_sym.
    rewrite map_app, existsb_app. simpl.
    rewrite Ekey, pair_eqb_refl. now rewrite !orb_true_r, andb_false_r. }
  split; [exact E2|]. split.
  - intros c. now rewrite E2.
  - intros c Ec. unfold entitledCircles. right. apply in_map_iff.
    exists l1. split; [reflexivity|]. apply filter_In. simpl. split.
    + apply in_or_app. right. now left.
    + apply N.eqb_eq. now symmetry.
Qed.

(** ** The scenarios of the specification, on the sample database *)

Section Scenarios.
Import Sample.
Local Open Scope N_scope.
Local Open Scope string_scope.

(** The criminal circle owns CASE-1 and has shared it with the civil circle:
    a clerk of the civil circle who asks for the cases gets an error, and
    so does a judge of the criminal circle. *)
Example nobody_reads_cases :
  query (as_user clerk_B) t_cases shared = Error (infinite_recursion t_case_circles) /\
  query (as_user judge_A) t_cases shared = Error (infinite_recursion t_case_circles) /\
  query anonymous t_cases shared = Ok [] /\
  query owner t_cases shared = Ok [case_1].
Proof. repeat split. Qed.

(** A judge of the primary circle closes the cases of the circle with an
    [UPDATE] that has no [WHERE]; with a [WHERE] the statement fails. *)
Example judge_closes_cases :
  option_map (map cases.status)
             (match exec (as_user judge_A) close_cases shared with
              | Ok d => Some (cases d)
              | Error _ => None
              end) = Some [closed] /\
  exec (as_user judge_A) (close_case 201) shared
  = Error (infinite_recursion t_case_circles) /\
  exec (as_user clerk_B) close_cases shared = Ok shared.
Proof. repeat split. Qed.

(** A judge of any circle reads the audit log; a clerk reads none of it. *)
Example audit_readers :
  query (as_user judge_D) t_audit_logs shared = Ok [audit_1] /\
  query (as_user clerk_B) t_audit_logs shared = Ok [].
Proof. split; reflexivity. Qed.

(** The [anon] role has no [INSERT] policy on [audit_logs]; its entries go
    through [log_audit_event]. *)
Example anonymous_audit_paths :
  rls_check Insert anonymous shared t_audit_logs audit_1 = false /\
  option_map (fun d => map audit_logs.user_id (audit_logs d))
             (match log_audit_event anonymous "deny" "case" (Some 201) "{}" 702 9 shared with
              | Ok d => Some d
              | Error _ => None
              end) = Some [Some 101; None].
Proof. split; reflexivity. Qed.

(** A signed-in user without a profile row creates no case. *)
Example stranger_is_denied :
  exec stranger (INSERT t_cases case_2) shared = Error insufficient_privilege.
Proof. reflexivity. Qed.

(** [DELETE] on a message: an error with a [WHERE], nothing hit without. *)
Example delete_hits_nothing :
  exec (as_user clerk_B) (delete_message 501) shared
  = Error (infinite_recursion t_case_circles) /\
  exec (as_user clerk_B) (DELETE_ALL t_case_messages) shared = Ok shared.
Proof. split; reflexivity. Qed.

Lemma case_view_raises_recursion_witness :
  query (as_user clerk_B) t_cases shared
  = Error (infinite_recursion t_case_circles) /\
  forall c, can_view (as_user clerk_B) t_cases c shared
            = Error (infinite_recursion t_case_circles).
Proof.
  apply (case_view_raises_recursion shared (as_user clerk_B)).
  reflexivity.
Defined.

(** C2, as stated, fails: a judge whose home circle is the primary circle of
    CASE-1 is refused when adding a link for it. *)
Lemma judge_of_primary_circle_cannot_add_link :
  user_profiles.role judge_A = judge /\
  user_profiles.circle_id judge_A = Some (cases.primary_circle_id case_1) /\
  case_circles.case_id link_1_civil = cases.id case_1 /\
  rls_check Insert (as_user judge_A) unshared t_case_circles link_1_civil = false /\
  exec (as_user judge_A) (INSERT t_case_circles link_1_civil) unshared
  = Error insufficient_privilege.
Proof. repeat split. Qed.

Lemma manage_collaboration_denied_witness :
  restricted (as_user judge_A) /\
  rls_check Insert (as_user judge_A) unshared t_case_circles link_1_civil = false /\
  exec (as_user judge_A) (INSERT t_case_circles link_1_civil) unshared
  = Error insufficient_privilege.
Proof.
  split; [reflexivity|].
  apply (manage_collaboration_denied (as_user judge_A) unshared link_1_civil).
  reflexivity.
Defined.

(** C3, as stated, fails: a direct insert into [audit_logs] by the
    unauthenticated role is refused. *)
Lemma anonymous_insert_into_audit_log_refused :
  current_user anonymous = anon /\ auth_uid anonymous = None /\
  rls_check Insert anonymous shared t_audit_logs audit_2 = false /\
  exec anonymous (INSERT t_audit_logs audit_2) shared
  = Error insufficient_privilege.
Proof. repeat split. Qed.

(** A signed-in user without a profile writes both ways; the
    unauthenticated role writes through the function only. *)
Lemma audit_write_paths_witness :
  ((exists a, log_audit_event stranger "deny" "case" (Some 201) "{}" 702 9 shared
              = Ok (set_rows t_audit_logs (audit_logs shared ++ [a]) shared)
              /\ audit_logs.id a = 702
              /\ audit_logs.user_id a = Some 999
              /\ audit_logs.action a = "deny"
              /\ audit_logs.resource_type a = "case"
              /\ audit_logs.resource_id a = Some 201) /\
   (forall a, audit_logs.id a = 702 ->
              (forall x, audit_logs.user_id a = Some x -> In x (auth_users shared)) ->
              rls_check Insert stranger shared t_audit_logs a = true /\
              exec stranger (INSERT t_audit_logs a) shared
              = Ok (set_rows t_audit_logs (audit_logs shared ++ [a]) shared))) /\
  ((exists a, log_audit_event anonymous "deny" "case" (Some 201) "{}" 702 9 shared
              = Ok (set_rows t_audit_logs (audit_logs shared ++ [a]) shared)
              /\ audit_logs.id a = 702
              /\ audit_logs.user_id a = None
              /\ audit_logs.action a = "deny"
              /\ audit_logs.resource_type a = "case"
              /\ audit_logs.resource_id a = Some 201) /\
   (forall a, audit_logs.id a = 702 ->
              (forall x, audit_logs.user_id a = Some x -> In x (auth_users shared)) ->
              rls_check Insert anonymous shared t_audit_logs a = false /\
              exec anonymous (INSERT t_audit_logs a) shared
              = Error insufficient_privilege)).
Proof.
  split.
  - apply (audit_write_paths stranger shared "deny" "case" (Some 201) "{}" 702 9).
    + reflexivity.
    + simpl. intros [H|[]]. discriminate H.
    + intros x H. injection H as <-. simpl. tauto.
  - apply (audit_write_paths anonymous shared "deny" "case" (Some 201) "{}" 702 9).
    + reflexivity.
    + simpl. intros [H|[]]. discriminate H.
    + intros x H. discriminate H.
Defined.

(** C4, as stated, fails: the second add of the same case and circle is an
    error, for the owner session that made the first, and a judge of the
    primary circle is refused both times. *)
Lemma second_add_is_an_error :
  exec owner (INSERT t_case_circles link_1_civil) unshared = Ok shared /\
  case_link_key link_1_civil_again = case_link_key link_1_civil /\
  exec owner (INSERT t_case_circles link_1_civil_again) shared
  = Error unique_violation /\
  exec (as_user judge_A) (INSERT t_case_circles link_1_civil) unshared
  = Error insufficient_privilege /\
  exec (as_user judge_A) (INSERT t_case_circles link_1_civil_again) shared
  = Error insufficient_privilege.
Proof. repeat split. Qed.

Lemma repeated_link_rejected_witness :
  exec owner (INSERT t_case_circles link_1_civil_again) shared
  = Error unique_violation /\
  (forall c, entitledCircles
               (state_after shared
                  (exec owner (INSERT t_case_circles link_1_civil_again) shared)) c
             = entitledCircles shared c) /\
  (forall c, cases.id c = case_circles.case_id link_1_civil ->
             In (case_circles.circle_id link_1_civil) (entitledCircles shared c)).
Proof.
  apply (repeated_link_rejected owner unshared shared link_1_civil link_1_civil_again).
  - reflexivity.
  - reflexivity.
Defined.

Lemma message_view_inherits_case_witness :
  can_view (as_user clerk_B) t_case_messages message_1 shared
  = can_view (as_user clerk_B) t_cases case_1 shared /\
  can_view (as_user clerk_B) t_cases case_1 shared
  = Error (infinite_recursion t_case_circles).
Proof.
  apply (message_view_inherits_case shared (as_user clerk_B) message_1 thread_1 case_1).
  - reflexivity.
  - simpl. tauto.
  - simpl. tauto.
  - reflexivity.
  - reflexivity.
Defined.

Lemma collaborator_view_raises_update_denied_witness :
  can_view (as_user clerk_B) t_cases case_1 shared
  = Error (infinite_recursion t_case_circles) /\
  rls_using Update (as_user clerk_B) shared t_cases case_1 = false /\
  (forall where_ set_,
     exec (as_user clerk_B) (UPDATE t_cases where_ set_) shared
     = Error (infinite_recursion t_case_circles)) /\
  (forall set_ d',
     In case_1 (cases shared) ->
     exec (as_user clerk_B) (UPDATE_SET t_cases set_) shared = Ok d' ->
     In case_1 (cases d')).
Proof.
  apply (collaborator_view_raises_update_denied
           shared (as_user clerk_B) clerk_B civil case_1 link_1_civil).
  - reflexivity.
  - split; reflexivity.
  - simpl. tauto.
  - reflexivity.
  - simpl. tauto.
  - reflexivity.
  - reflexivity.
  - intros H. discriminate H.
Defined.

Lemma audit_view_iff_judge_witness :
  rls_using Select (as_user judge_D) shared t_audit_logs audit_1 = true
  <-> user_profiles.role judge_D = judge.
Proof.
  apply (audit_view_iff_judge shared (as_user judge_D) judge_D audit_1).
  - reflexivity.
  - split; reflexivity.
  - simpl. tauto.
Defined.



(** C9, as stated, fails: the clerk who sent the message, and whose circle
    is entitled on its case, cannot edit it.  With a [WHERE] the statement
    is an error; without one it hits no row. *)
Lemma entitled_sender_cannot_edit_message :
  user_profiles.circle_id clerk_B = Some civil /\
  In civil (entitledCircles shared case_1) /\
  case_messages.sender_id message_1 = user_profiles.id clerk_B /\
  exec (as_user clerk_B) (edit_message 501 9) shared
  = Error (infinite_recursion t_case_circles) /\
  exec (as_user clerk_B) (touch_messages 9) shared = Ok shared /\
  map case_messages.edited_at (case_messages shared) = [None].
Proof. repeat split. simpl. tauto. Qed.

Lemma messages_neither_edited_nor_deleted_witness :
  restricted (as_user clerk_B) /\
  (forall m, rls_using Update (as_user clerk_B) shared t_case_messages m = false
             /\ rls_using Delete (as_user clerk_B) shared t_case_messages m = false) /\
  (forall where_ set_,
     state_after shared
       (exec (as_user clerk_B) (UPDATE t_case_messages where_ set_) shared) = shared) /\
  (forall set_,
     state_after shared
       (exec (as_user clerk_B) (UPDATE_SET t_case_messages set_) shared) = shared) /\
  (forall where_,
     state_after shared
       (exec (as_user clerk_B) (DELETE t_case_messages where_) shared) = shared) /\
  state_after shared (exec (as_user clerk_B) (DELETE_ALL t_case_messages) shared)
  = shared /\
  (current_user (as_user clerk_B) = authenticated ->
   forall where_,
     (forall set_, exec (as_user clerk_B) (UPDATE t_case_messages where_ set_) shared
                   = Error (infinite_recursion t_case_circles)) /\
     exec (as_user clerk_B) (DELETE t_case_messages where_) shared
     = Error (infinite_recursion t_case_circles)) /\
  (forall q d', serve (as_user clerk_B) q shared = Ok d' ->
                case_messages d' = case_messages shared).
Proof.
  split; [reflexivity|].
  apply (messages_neither_edited_nor_deleted (as_user clerk_B) shared).
  reflexivity.
Defined.

(** C10, as stated, fails: a judge whose profile has no home circle creates
    a case. *)
Lemma judge_without_circle_creates_case :
  current_user (as_user judge_unassigned) = authenticated /\
  no_home_circle unshared (as_user judge_unassigned) /\
  rls_check Insert (as_user judge_unassigned) unshared t_cases case_2 = true /\
  exec (as_user judge_unassigned) (INSERT t_cases case_2) unshared
  = Ok (set_rows t_cases [case_1; case_2] unshared).
Proof.
  split; [reflexivity|]. split; [|split; reflexivity].
  right. exists judge_unassigned. split; [simpl; tauto | split; reflexivity].
Qed.

Lemma no_home_circle_denied_witness :
  (forall c, rls_using Select (as_user judge_unassigned) unshared t_cases c = false) /\
  (forall t, rls_using Select (as_user judge_unassigned) unshared t_case_threads t = false
             /\ rls_check Insert (as_user judge_unassigned) unshared t_case_threads t = false) /\
  (forall m, rls_using Select (as_user judge_unassigned) unshared t_case_messages m = false
             /\ rls_check Insert (as_user judge_unassigned) unshared t_case_messages m = false) /\
  (forall x, rls_using Select (as_user judge_unassigned) unshared t_case_documents x = false
             /\ rls_check Insert (as_user judge_unassigned) unshared t_case_documents x = false) /\
  (forall c, rls_check Insert (as_user judge_unassigned) unshared t_cases c = true
             <-> exists p, In p (user_profiles unshared)
                           /\ auth_uid (as_user judge_unassigned) = Some (user_profiles.id p)
                           /\ In (user_profiles.role p) [judge; clerk]).
Proof.
  apply (no_home_circle_denied unshared (as_user judge_unassigned)).
  - reflexivity.
  - reflexivity.
  - right. exists judge_unassigned. split; [simpl; tauto | split; reflexivity].
Defined.

End Scenarios.

(** * Further properties of the migration *)

(** ** Circles and case updates *)

(** X1.  An authenticated caller with a profile sees a row of
    [judicial_circles] exactly when it is the circle of the profile. *)
Theorem circle_view_iff_home d s p c :
  consistent d -> logged_in s p -> In p (user_profiles d) ->
  rls_using Select s d t_judicial_circles c = true
  <-> user_profiles.circle_id p = Some (judicial_circles.id c).
Proof.
  intros Hc Hlog Hp. rewrite view_circle by apply Hlog.
  unfold judicial_circles_select_qual. rewrite sql_true_in.
  destruct Hlog as [_ Huid]. rewrite Huid, caller_circles_profile by assumption.
  simpl. split; [intros [E|[]]; assumption | auto].
Qed.

Lemma judge_or_clerk_circles_iff d p h :
  consistent d -> In p (user_profiles d) ->
  In (Some h) (caller_circles_as_judge_or_clerk d (Some (user_profiles.id p)))
  <-> In (user_profiles.role p) [judge; clerk] /\ user_profiles.circle_id p = Some h.
Proof.
  intros Hc Hp. split.
  - intros Hh. split; [|now apply (judge_or_clerk_circle_profile d p h)].
    unfold caller_circles_as_judge_or_clerk in Hh.
    apply in_map_iff in Hh as [q [_ Hq]]. apply sql_where_In in Hq as [Hq Hqq].
    rewrite sql_true_and in Hqq. apply andb_true_iff in Hqq as [Hid Hr].
    apply sql_true_eq in Hid. apply sql_true_role_in in Hr.
    assert (q = p) as ->; [|assumption].
    apply (unique_key user_profiles.id (user_profiles d)); auto using pk_user_profiles.
    congruence.
  - intros [Hr Hh]. unfold caller_circles_as_judge_or_clerk.
    apply in_map_iff. exists p. split; [assumption|].
    apply sql_where_In. split; [assumption|].
    rewrite sql_true_and. apply andb_true_iff. split.
    + now apply sql_true_eq.
    + now apply sql_true_role_in.
Qed.

(** X2.  The [UPDATE] policy of [cases] exposes a case to an authenticated
    caller with a profile exactly when the role of the profile is judge or
    clerk and its circle is the primary circle of the case. *)
Theorem case_update_iff_primary_judge_or_clerk d s p c :
  consistent d -> logged_in s p -> In p (user_profiles d) ->
  rls_using Update s d t_cases c = true
  <-> In (user_profiles.role p) [judge; clerk]
      /\ user_profiles.circle_id p = Some (cases.primary_circle_id c).
Proof.
  intros Hc [Hrole Huid] Hp. rewrite update_case_using by assumption.
  unfold cases_update_qual. rewrite sql_true_in, Huid.
  now apply judge_or_clerk_circles_iff.
Qed.

(** X3.  An update cannot move a case to another circle.  When an [UPDATE]
    without [WHERE] would give a case that the policy exposes a different
    [primary_circle_id], the new row fails the check of the policy and the
    whole statement is refused; with a [WHERE] the statement of an
    authenticated caller fails before that, while its policies are
    expanded. *)
Theorem case_update_cannot_change_primary_circle d s c set_ :
  consistent d -> restricted s -> In c (cases d) ->
  rls_using Update s d t_cases c = true ->
  cases.primary_circle_id (cases.assign set_ c) <> cases.primary_circle_id c ->
  exec s (UPDATE_SET t_cases set_) d = Error insufficient_privilege /\
  forall where_ set', exec s (UPDATE t_cases where_ set') d
                      = Error (infinite_recursion t_case_circles).
Proof.
  intros Hc H Hin Hu Hne.
  destruct (restricted_role s H) as [Hrole|Hrole].
  { rewrite anon_sees_nothing in Hu by assumption. discriminate. }
  split.
  - unfold exec. rewrite policy_error_update_set. unfold update_rows.
    destruct (forallb _ _) eqn:F; [|reflexivity]. exfalso.
    rewrite forallb_forall in F.
    assert (Hnew : rls_check Update s d t_cases (cases.assign set_ c) = true).
    { apply (F c). apply filter_In. split; assumption. }
    rewrite update_case_using in Hu by assumption.
    rewrite update_case_check in Hnew by assumption.
    unfold cases_update_qual in Hu, Hnew. apply sql_true_in in Hu, Hnew.
    apply Hne. now apply (judge_or_clerk_circle_unique d (auth_uid s)).
  - intros w f. unfold exec. now rewrite policy_error_update_where by assumption.
Qed.

(** ** The tables below a case *)

Lemma query_case_table s t d :
  case_table t = true ->
  query s t d
  = match current_user s with
    | anon => Ok []
    | authenticated => Error (infinite_recursion t_case_circles)
    | table_owner => Ok (rows t d)
    end.
Proof.
  intros Ht. unfold query, select_from. destruct (current_user s) eqn:R.
  - rewrite policy_error_exempt by congruence. f_equal.
    apply filter_nil. intros r _. now apply anon_sees_nothing.
  - rewrite policy_error_select by assumption. now rewrite Ht.
  - rewrite policy_error_exempt by congruence. f_equal.
    apply filter_all. intros r _. now apply owner_sees_all.
Qed.

Lemma insert_case_child s t r d :
  case_child t = true ->
  exec s (INSERT t r) d
  = match current_user s with
    | anon => Error insufficient_privilege
    | authenticated => Error (infinite_recursion t_case_circles)
    | table_owner => commit (set_rows t (rows t d ++ [r]) d)
    end.
Proof.
  intros Ht. unfold exec. destruct (current_user s) eqn:R.
  - rewrite policy_error_exempt by congruence. now rewrite anon_writes_nothing.
  - rewrite policy_error_insert by assumption. now rewrite Ht.
  - rewrite policy_error_exempt by congruence. now rewrite owner_writes_all.
Qed.

(** X4.  Threads are out of reach of every client.  A [SELECT] on
    [case_threads] returns no row to [anon] and fails for [authenticated]
    while the policy is expanded; an [INSERT] is refused to [anon] and fails
    in the same way for [authenticated]; whatever the thread, the case and
    the caller's circle.  Only the owner reads and writes them. *)
Theorem thread_access_by_role d s t :
  query s t_case_threads d
  = match current_user s with
    | anon => Ok []
    | authenticated => Error (infinite_recursion t_case_circles)
    | table_owner => Ok (case_threads d)
    end /\
  exec s (INSERT t_case_threads t) d
  = match current_user s with
    | anon => Error insufficient_privilege
    | authenticated => Error (infinite_recursion t_case_circles)
    | table_owner => commit (set_rows t_case_threads (case_threads d ++ [t]) d)
    end.
Proof.
  split; [now apply query_case_table | now apply insert_case_child].
Qed.

(** X5.  Documents likewise: no client lists them and no client uploads
    one. *)
Theorem document_access_by_role d s x :
  query s t_case_documents d
  = match current_user s with
    | anon => Ok []
    | authenticated => Error (infinite_recursion t_case_circles)
    | table_owner => Ok (case_documents d)
    end /\
  exec s (INSERT t_case_documents x) d
  = match current_user s with
    | anon => Error insufficient_privilege
    | authenticated => Error (infinite_recursion t_case_circles)
    | table_owner => commit (set_rows t_case_documents (case_documents d ++ [x]) d)
    end.
Proof.
  split; [now apply query_case_table | now apply insert_case_child].
Qed.

(** X6.  No client sends a message: the insert is refused to [anon] and
    fails for [authenticated] while the policy is expanded, whatever the
    thread and the sender. *)
Theorem message_send_by_role d s m :
  exec s (INSERT t_case_messages m) d
  = match current_user s with
    | anon => Error insufficient_privilege
    | authenticated => Error (infinite_recursion t_case_circles)
    | table_owner => commit (set_rows t_case_messages (case_messages d ++ [m]) d)
    end.
Proof.
  unfold exec. destruct (current_user s) eqn:R.
  - rewrite policy_error_exempt by congruence. now rewrite anon_writes_nothing.
  - now rewrite policy_error_insert by assumption.
  - rewrite policy_error_exempt by congruence. now rewrite owner_writes_all.
Qed.

(** X7.  No client reads the collaboration links, and none changes them:
    the [SELECT] policy of [case_circles] reads [cases], whose policy reads
    [case_circles] again, and the table has no other policy. *)
Theorem link_view_by_role d s :
  query s t_case_circles d
  = match current_user s with
    | anon => Ok []
    | authenticated => Error (infinite_recursion t_case_circles)
    | table_owner => Ok (case_circles d)
    end /\
  (restricted s ->
   forall st d', exec s st d = Ok d' -> case_circles d' = case_circles d).
Proof.
  split.
  - now apply query_case_table.
  - intros H st d' Hs.
    now apply (case_circles_frozen s (Statement st) d d').
Qed.

(** X8.  Where the recursion strikes.  For role [authenticated], expanding
    the policies fails exactly for a statement on one of the five case
    tables that reads rows (a [SELECT], or an [UPDATE] or [DELETE] with a
    [WHERE]) and for an [INSERT] into threads, messages or documents; an
    [UPDATE] or [DELETE] without [WHERE] and an [INSERT] into [cases] or
    [audit_logs] never fail in this way, and no statement of [anon] or of
    the owner does. *)
Theorem policy_recursion_exactly s t :
  let hits (b : bool) :=
    if pg_role_eqb (current_user s) authenticated && b
    then Some (infinite_recursion t_case_circles) else None in
  policy_error [Select] s t = hits (case_table t) /\
  policy_error [Update; Select] s t = hits (case_table t) /\
  policy_error [Delete; Select] s t = hits (case_table t) /\
  policy_error [Insert] s t = hits (case_child t) /\
  policy_error [Update] s t = None /\
  policy_error [Delete] s t = None.
Proof.
  destruct s as [[| |] u]; destruct t; repeat split.
Qed.

(** ** The [anon] role *)

(** X9.  No policy is granted to [anon]: such a session reads no row of any
    table, every insert of its own is refused, and no statement of its own
    changes the database. *)
Theorem anon_reaches_nothing d s :
  current_user s = anon ->
  (forall t, select_from s t d = []) /\
  (forall t r, exec s (INSERT t r) d = Error insufficient_privilege) /\
  (forall st d', exec s st d = Ok d' -> d' = d).
Proof.
  intros Hrole.
  assert (H : restricted s).
  { unfold restricted, bypass_rls. now rewrite Hrole. }
  assert (Hex : forall cs t, policy_error cs s t = None).
  { intros cs t. apply policy_error_exempt. congruence. }
  split; [|split].
  - intros t. unfold select_from. apply filter_nil.
    intros r _. now apply anon_sees_nothing.
  - intros t r. unfold exec. now rewrite Hex, anon_writes_nothing.
  - intros st d' Hs. destruct st as [t r | t w f | t w | t a | t];
      unfold exec in Hs; rewrite Hex in Hs.
    + rewrite anon_writes_nothing in Hs by assumption. discriminate.
    + rewrite update_rows_unhit in Hs; [now apply commit_ok in Hs|].
      intros r _. now rewrite !anon_sees_nothing, andb_false_r.
    + rewrite delete_rows_unhit in Hs; [now apply commit_ok in Hs|].
      intros r _. now rewrite !anon_sees_nothing, andb_false_r.
    + rewrite update_rows_unhit in Hs; [now apply commit_ok in Hs|].
      intros r _. now apply anon_sees_nothing.
    + rewrite delete_rows_unhit in Hs; [now apply commit_ok in Hs|].
      intros r _. now apply anon_sees_nothing.
Qed.

(** ** Profiles *)

Lemma own_profile_using s d r :
  current_user s = authenticated ->
  rls_using Update s d t_user_profiles r
  = sql_true (sql_eq (Some (user_profiles.id r)) (auth_uid s)).
Proof.
  intros Hrole. unfold rls_using, bypass_rls, applies. simpl.
  rewrite Hrole. simpl. now rewrite ?orb_false_r.
Qed.

Lemma own_profile_check s d r :
  current_user s = authenticated ->
  rls_check Update s d t_user_profiles r
  = sql_true (sql_eq (Some (user_profiles.id r)) (auth_uid s)).
Proof.
  intros Hrole. unfold rls_check, bypass_rls, applies. simpl.
  rewrite Hrole. simpl. now rewrite ?orb_false_r.
Qed.

Lemma own_profile_view s d r :
  current_user s = authenticated ->
  rls_using Select s d t_user_profiles r
  = sql_true (sql_eq (Some (user_profiles.id r)) (auth_uid s)).
Proof.
  intros Hrole. unfold rls_using, bypass_rls, applies. simpl.
  rewrite Hrole. simpl. now rewrite ?orb_false_r.
Qed.

Lemma fk_profile_circle d :
  consistent d ->
  all_in (non_null (map user_profiles.circle_id (user_profiles d)))
         (map judicial_circles.id (judicial_circles d)) = true.
Proof.
  intros H. apply consistent_checks in H as [_ H]. simpl in H.
  now apply andb_true_iff in H as [H _].
Qed.

(** The state after a profile has been replaced by [p'] in place. *)
Lemma replace_profile_consistent d p p' :
  consistent d -> In p (user_profiles d) ->
  user_profiles.id p' = user_profiles.id p ->
  user_profiles.employee_id p' = user_profiles.employee_id p ->
  (forall k, user_profiles.circle_id p' = Some k ->
             In k (map judicial_circles.id (judicial_circles d))) ->
  consistent
    (set_rows t_user_profiles
       (map (fun r => if N.eqb (user_profiles.id r) (user_profiles.id p)
                      then p' else r) (user_profiles d)) d).
Proof.
  intros Hc Hp Eid Eemp Hfk.
  set (g := fun r => if N.eqb (user_profiles.id r) (user_profiles.id p) then p' else r).
  assert (Hsame : forall r, In r (user_profiles d) ->
                            N.eqb (user_profiles.id r) (user_profiles.id p) = true ->
                            r = p).
  { intros r Hr E. apply N.eqb_eq in E.
    apply (unique_key user_profiles.id (user_profiles d)); auto using pk_user_profiles. }
  assert (Hids : map user_profiles.id (map g (user_profiles d))
                 = map user_profiles.id (user_profiles d)).
  { rewrite map_map. apply map_ext_in. intros r Hr. unfold g.
    destruct (N.eqb _ _) eqn:E; [|reflexivity].
    rewrite (Hsame r Hr E). assumption. }
  assert (Hemp : map user_profiles.employee_id (map g (user_profiles d))
                 = map user_profiles.employee_id (user_profiles d)).
  { rewrite map_map. apply map_ext_in. intros r Hr. unfold g.
    destruct (N.eqb _ _) eqn:E; [|reflexivity].
    rewrite (Hsame r Hr E). assumption. }
  assert (Hcirc : all_in (non_null (map user_profiles.circle_id (map g (user_profiles d))))
                         (map judicial_circles.id (judicial_circles d)) = true).
  { apply all_in_spec. intros k Hk. apply in_non_null in Hk.
    apply in_map_iff in Hk as [r' [Ek Hr']]. apply in_map_iff in Hr' as [r [Er Hr]].
    subst r'. unfold g in Ek. destruct (N.eqb _ _).
    - now apply Hfk.
    - pose proof (fk_profile_circle d Hc) as F. rewrite all_in_spec in F.
      apply F. apply in_non_null. rewrite <- Ek. now apply in_map. }
  destruct (consistent_checks d Hc) as [U F]. rewrite forallb_forall in U, F.
  apply consistent_intro; apply forallb_forall; intros b Hb.
  - unfold unique_constraints in Hb. db_proj_in Hb. fold g in Hb.
    rewrite Hids, Hemp in Hb. each_check Hb; old_check U.
  - unfold foreign_keys in Hb. db_proj_in Hb. fold g in Hb.
    rewrite Hids in Hb. each_check Hb; try old_check F. exact Hcirc.
Qed.

(** The statement by which a signed-in user replaces their own row. *)
Lemma replace_own_profile d s p p' :
  consistent d -> logged_in s p -> In p (user_profiles d) ->
  user_profiles.id p' = user_profiles.id p ->
  user_profiles.employee_id p' = user_profiles.employee_id p ->
  (forall k, user_profiles.circle_id p' = Some k ->
             In k (map judicial_circles.id (judicial_circles d))) ->
  exec s (UPDATE t_user_profiles
            (fun r => N.eqb (user_profiles.id r) (user_profiles.id p))
            (fun _ => p')) d
  = Ok (set_rows t_user_profiles
          (map (fun r => if N.eqb (user_profiles.id r) (user_profiles.id p)
                         then p' else r) (user_profiles d)) d).
Proof.
  intros Hc [Hrole Huid] Hp Eid Eemp Hfk.
  unfold exec. rewrite policy_error_plain_table by (simpl; auto).
  unfold update_rows.
  assert (Hchk : rls_check Update s d t_user_profiles p'
                 && rls_using Select s d t_user_profiles p' = true).
  { rewrite own_profile_check, own_profile_view, Huid, Eid by assumption.
    simpl. now rewrite N.eqb_refl. }
  rewrite (proj2 (forallb_forall _ _)) by (intros; exact Hchk).
  rewrite (map_ext_in _ (fun r => if N.eqb (user_profiles.id r) (user_profiles.id p)
                                  then p' else r)).
  - apply commit_consistent. now apply replace_profile_consistent.
  - intros r Hr. destruct (N.eqb _ _) eqn:E; [|reflexivity].
    rewrite own_profile_using, own_profile_view, Huid by assumption.
    apply N.eqb_eq in E. rewrite E. simpl. now rewrite N.eqb_refl.
Qed.

(** X10.  The [UPDATE] policy of [user_profiles] checks the id and nothing
    else: a signed-in user may rewrite their own row to any role and any
    stored circle (or none), keeping id and employee number. *)
Theorem profile_self_update_any_role_and_circle d s p p' :
  consistent d -> logged_in s p -> In p (user_profiles d) ->
  user_profiles.id p' = user_profiles.id p ->
  user_profiles.employee_id p' = user_profiles.employee_id p ->
  (forall k, user_profiles.circle_id p' = Some k ->
             In k (map judicial_circles.id (judicial_circles d))) ->
  let d' := set_rows t_user_profiles
              (map (fun r => if N.eqb (user_profiles.id r) (user_profiles.id p)
                             then p' else r) (user_profiles d)) d in
  exec s (UPDATE t_user_profiles
            (fun r => N.eqb (user_profiles.id r) (user_profiles.id p))
            (fun _ => p')) d = Ok d'
  /\ In p' (user_profiles d').
Proof.
  intros Hc Hlog Hp Eid Eemp Hfk d'. split.
  - now apply replace_own_profile.
  - unfold d'. simpl. apply in_map_iff. exists p. now rewrite N.eqb_refl.
Qed.

(** X11.  A user rewrites no profile but their own: after an update of
    [user_profiles] by a session under row security every row of another
    user is still stored, and every row that is new carries the caller's
    id. *)
Theorem profile_update_only_own d s where_ set_ d' :
  restricted s -> exec s (UPDATE t_user_profiles where_ set_) d = Ok d' ->
  (forall q, In q (user_profiles d) -> auth_uid s <> Some (user_profiles.id q) ->
             In q (user_profiles d')) /\
  (forall r, In r (user_profiles d') ->
             In r (user_profiles d) \/ auth_uid s = Some (user_profiles.id r)).
Proof.
  intros H Hs. unfold exec in Hs.
  destruct (policy_error _ _ _); [discriminate|].
  apply update_rows_ok in Hs as [F [-> _]]. simpl user_profiles.
  rewrite forallb_forall in F.
  destruct (restricted_role s H) as [Hrole|Hrole].
  - rewrite map_unhit.
    + split; auto.
    + intros r _. now rewrite !anon_sees_nothing, andb_false_r.
  - split.
    + intros q Hq Hne. apply in_map_iff. exists q. split; [|assumption].
      rewrite own_profile_using by assumption.
      destruct (sql_true _) eqn:E; [|now rewrite andb_false_r].
      apply sql_true_eq in E. congruence.
    + intros r Hr. apply in_map_iff in Hr as [r0 [E Hr0]].
      destruct (where_ r0 && _ && _) eqn:Hhit; [|left; now subst].
      right. subst r.
      assert (Hchk : rls_check Update s d t_user_profiles (set_ r0)
                     && rls_using Select s d t_user_profiles (set_ r0) = true).
      { apply (F r0). apply filter_In. split; assumption. }
      apply andb_true_iff in Hchk as [Hchk _].
      rewrite own_profile_check in Hchk by assumption.
      now apply sql_true_eq in Hchk.
Qed.

(** X27.  A signed-in user reads one row of [user_profiles], their own:
    the profiles of colleagues, and so their roles and circles, are not
    visible to them. *)
Theorem profile_select_returns_own_row d s p :
  consistent d -> logged_in s p -> In p (user_profiles d) ->
  select_from s t_user_profiles d = [p].
Proof.
  intros Hc [Hrole Huid] Hp. unfold select_from.
  rewrite (filter_ext _ (fun q => N.eqb (user_profiles.id q) (user_profiles.id p))).
  - apply filter_by_key; [now apply pk_user_profiles | assumption].
  - intros q. unfold rls_using, bypass_rls, applies. simpl.
    rewrite Hrole, Huid. simpl. rewrite ?orb_false_r.
    now destruct (N.eqb _ _).
Qed.

Lemma judge_reads_audit d s p a :
  logged_in s p -> In p (user_profiles d) -> user_profiles.role p = judge ->
  rls_using Select s d t_audit_logs a = true.
Proof.
  intros [Hrole Huid] Hp Hj. rewrite view_audit by assumption.
  unfold audit_logs_select_qual. apply sql_exists_true. exists p.
  apply sql_where_In. split; [assumption|].
  rewrite sql_true_and. apply andb_true_iff. split.
  - now apply sql_true_eq.
  - now apply sql_true_role_eq.
Qed.

(** X12.  The self-chosen role and circle take effect at once: after a user
    has rewritten their own profile, the role judge opens the whole audit
    log to them, and with the role judge or clerk the new circle exposes to
    their updates every case whose primary circle it is. *)
Theorem self_assigned_role_and_circle_take_effect d s p p' :
  consistent d -> logged_in s p -> In p (user_profiles d) ->
  user_profiles.id p' = user_profiles.id p ->
  user_profiles.employee_id p' = user_profiles.employee_id p ->
  (forall k, user_profiles.circle_id p' = Some k ->
             In k (map judicial_circles.id (judicial_circles d))) ->
  let d' := state_after d
              (exec s (UPDATE t_user_profiles
                         (fun r => N.eqb (user_profiles.id r) (user_profiles.id p))
                         (fun _ => p')) d) in
  (user_profiles.role p' = judge ->
   query s t_audit_logs d' = Ok (audit_logs d')) /\
  (forall c, user_profiles.circle_id p' = Some (cases.primary_circle_id c) ->
             In (user_profiles.role p') [judge; clerk] ->
             rls_using Update s d' t_cases c = true).
Proof.
  intros Hc Hlog Hp Eid Eemp Hfk d'.
  set (d1 := set_rows t_user_profiles
               (map (fun r => if N.eqb (user_profiles.id r) (user_profiles.id p)
                              then p' else r) (user_profiles d)) d).
  assert (Hc1 : consistent d1) by now apply replace_profile_consistent.
  assert (Hp1 : In p' (user_profiles d1)).
  { unfold d1. simpl. apply in_map_iff. exists p. now rewrite N.eqb_refl. }
  assert (Hlog1 : logged_in s p').
  { destruct Hlog as [Hrole Huid]. split; [assumption|]. now rewrite Eid. }
  assert (Ed : d' = d1).
  { unfold d'. now rewrite replace_own_profile. }
  rewrite Ed. split.
  - intros Hj. unfold query.
    rewrite policy_error_plain_table by (simpl; auto).
    f_equal. unfold select_from. apply filter_all.
    intros a _. now apply judge_reads_audit with p'.
  - intros c Hcirc Hr. rewrite update_case_using by apply Hlog1.
    unfold cases_update_qual. apply sql_true_in.
    destruct Hlog1 as [_ Huid1]. rewrite Huid1.
    apply judge_or_clerk_circles_iff; auto.
Qed.

(** ** Creating cases *)

(** A new case with a fresh id and a fresh number keeps every key unique. *)
Lemma append_case_unique d c :
  consistent d ->
  ~ In (cases.id c) (map cases.id (cases d)) ->
  ~ In (cases.case_number c) (map cases.case_number (cases d)) ->
  forallb (fun b => b) (unique_constraints (set_rows t_cases (cases d ++ [c]) d)) = true.
Proof.
  intros Hc Hid Hnum. destruct (consistent_checks d Hc) as [U _].
  rewrite forallb_forall in U. apply forallb_forall; intros b Hb.
  unfold unique_constraints in Hb. db_proj_in Hb.
  each_check Hb; try old_check U.
  - rewrite map_app. simpl map. rewrite distinct_snoc by apply N.eqb_sym.
    rewrite fresh_not_mem by assumption. rewrite andb_true_r. old_check U.
  - rewrite map_app. simpl map. rewrite distinct_snoc by apply String.eqb_sym.
    rewrite fresh_string_not_mem by assumption. rewrite andb_true_r. old_check U.
Qed.

(** A new case with a fresh id, a fresh number, a stored primary circle, a
    creator and, if any, an assigned judge among the users breaks no
    constraint. *)
Lemma append_case_consistent d c :
  consistent d ->
  ~ In (cases.id c) (map cases.id (cases d)) ->
  ~ In (cases.case_number c) (map cases.case_number (cases d)) ->
  In (cases.primary_circle_id c) (map judicial_circles.id (judicial_circles d)) ->
  In (cases.created_by c) (auth_users d) ->
  (forall j, cases.assigned_judge c = Some j -> In j (auth_users d)) ->
  consistent (set_rows t_cases (cases d ++ [c]) d).
Proof.
  intros Hc Hid Hnum Hfk Hby Hjudge.
  apply consistent_intro; [now apply append_case_unique|].
  destruct (consistent_checks d Hc) as [_ F]. rewrite forallb_forall in F.
  apply forallb_forall; intros b Hb.
  unfold foreign_keys in Hb. db_proj_in Hb. each_check Hb; try old_check F.
  - rewrite map_app. simpl map. apply all_in_snoc; [old_check F | assumption].
  - rewrite map_app. simpl map. apply all_in_more. old_check F.
  - rewrite map_app. simpl map. apply all_in_more. old_check F.
  - rewrite map_app. simpl map. apply all_in_more. old_check F.
  - rewrite map_app. simpl map. apply all_in_snoc; [old_check F | assumption].
  - rewrite map_app. simpl map.
    apply all_in_non_null_snoc; [old_check F | assumption].
Qed.

(** X13.  Creating a case asks for the role only: a judge or clerk may
    insert a case under any stored circle as its primary circle, their own
    or not.  When the primary circle is not their own, the [UPDATE] policy
    does not expose to the creator the case they have just created. *)
Theorem case_creation_not_tied_to_home_circle d s p c :
  consistent d -> logged_in s p -> In p (user_profiles d) ->
  In (user_profiles.role p) [judge; clerk] ->
  ~ In (cases.id c) (map cases.id (cases d)) ->
  ~ In (cases.case_number c) (map cases.case_number (cases d)) ->
  In (cases.primary_circle_id c) (map judicial_circles.id (judicial_circles d)) ->
  In (cases.created_by c) (auth_users d) ->
  (forall j, cases.assigned_judge c = Some j -> In j (auth_users d)) ->
  let d' := set_rows t_cases (cases d ++ [c]) d in
  exec s (INSERT t_cases c) d = Ok d' /\
  (user_profiles.circle_id p <> Some (cases.primary_circle_id c) ->
   rls_using Update s d' t_cases c = false).
Proof.
  intros Hc Hlog Hp Hr Hid Hnum Hfk Hby Hjudge d'.
  assert (Hc' : consistent d') by now apply append_case_consistent.
  split.
  - rewrite exec_insert_plain by reflexivity.
    assert (E : rls_check Insert s d t_cases c = true).
    { apply create_case_iff_role; [apply Hlog|]. exists p.
      destruct Hlog as [_ Huid]. auto. }
    rewrite E. now apply commit_consistent.
  - intros Hne. destruct Hlog as [Hrole Huid].
    rewrite update_case_using by assumption. rewrite Huid.
    destruct (sql_true _) eqn:E; [|reflexivity].
    unfold cases_update_qual in E. apply sql_true_in in E.
    apply (judge_or_clerk_circle_profile d' p) in E;
      [congruence | assumption | exact Hp].
Qed.

(** ** Keys and references on insertion *)

Lemma distinct_snoc_dup {R} (key : R -> uuid) l r :
  In (key r) (map key l) -> distinct N.eqb (map key (l ++ [r])) = false.
Proof.
  intros H. rewrite map_app. simpl map. rewrite distinct_snoc by apply N.eqb_sym.
  assert (E : existsb (N.eqb (key r)) (map key l) = true).
  { apply existsb_exists. exists (key r). split; [assumption | apply N.eqb_refl]. }
  now rewrite E, andb_false_r.
Qed.

(** X14.  [PRIMARY KEY]: on any of the eight tables, an insert that gets as
    far as the row (its policies expand, and the new row passes them) fails
    with a uniqueness violation when the id of the row is already
    stored. *)
Theorem insert_existing_id_rejected d s t r :
  policy_error [Insert] s t = None ->
  rls_check Insert s d t r = true ->
  In (id_of t r) (map (id_of t) (rows t d)) ->
  exec s (INSERT t r) d = Error unique_violation.
Proof.
  intros Hexp Hchk Hin. unfold exec. rewrite Hexp, Hchk. unfold commit.
  rewrite violated_unique; [reflexivity|].
  unfold unique_constraints.
  destruct t; db_proj; simpl in Hin;
    repeat (first [ left; apply distinct_snoc_dup; exact Hin | right ]).
Qed.

(** X15.  [case_number text UNIQUE]: a case whose number is already taken
    is refused with a uniqueness violation, for a caller allowed to create
    cases as for anyone else. *)
Theorem duplicate_case_number_rejected d s c :
  rls_check Insert s d t_cases c = true ->
  In (cases.case_number c) (map cases.case_number (cases d)) ->
  exec s (INSERT t_cases c) d = Error unique_violation.
Proof.
  intros Hchk Hin. rewrite exec_insert_plain by reflexivity.
  rewrite Hchk. unfold commit.
  rewrite violated_unique; [reflexivity|].
  unfold unique_constraints. db_proj. do 4 right. left.
  rewrite map_app. simpl map. rewrite distinct_snoc by apply String.eqb_sym.
  assert (E : existsb (String.eqb (cases.case_number c))
                      (map cases.case_number (cases d)) = true).
  { apply existsb_exists. exists (cases.case_number c).
    split; [assumption | apply String.eqb_refl]. }
  now rewrite E, andb_false_r.
Qed.

(** X16.  [primary_circle_id REFERENCES judicial_circles(id)]: a case that
    names a circle which is not stored is refused with a foreign-key
    violation, although the insert policy, which looks at the role only,
    lets it through. *)
Theorem case_with_unknown_circle_rejected d s c :
  consistent d -> rls_check Insert s d t_cases c = true ->
  ~ In (cases.id c) (map cases.id (cases d)) ->
  ~ In (cases.case_number c) (map cases.case_number (cases d)) ->
  ~ In (cases.primary_circle_id c) (map judicial_circles.id (judicial_circles d)) ->
  exec s (INSERT t_cases c) d = Error foreign_key_violation.
Proof.
  intros Hc Hchk Hid Hnum Hfk. rewrite exec_insert_plain by reflexivity.
  rewrite Hchk. unfold commit.
  rewrite violated_foreign_key; [reflexivity | now apply append_case_unique |].
  unfold foreign_keys. db_proj. right. left.
  destruct (all_in _ _) eqn:E; [|reflexivity]. exfalso.
  rewrite all_in_spec in E. apply Hfk, E.
  rewrite map_app. apply in_or_app. right. now left.
Qed.

(** ** What client requests leave in place *)

(** X17.  Under row security rows are never deleted: after any successful
    request no table has fewer rows, and the tables without an [UPDATE]
    policy (circles, links, threads, messages, documents, audit log) keep
    their rows unchanged and in order, with new rows only at the end. *)
Theorem tables_only_grow s q d d' :
  restricted s -> serve s q d = Ok d' ->
  forall t, (update_policy t = false -> exists l, rows t d' = rows t d ++ l) /\
            List.length (rows t d) <= List.length (rows t d').
Proof.
  intros H Hs t.
  destruct (restricted_serve s q d d' H Hs)
    as [-> | [[c ->] | [[a ->] | [[hit [f [_ [_ ->]]]] | [[a [_ ->]] | [u ->]]]]]].
  - split; [intros _; exists []; now rewrite app_nil_r | lia].
  - destruct t; db_proj;
      (split;
       [ intros E; first [ discriminate E | exists []; now rewrite app_nil_r ]
       | rewrite ?length_app; simpl; lia ]).
  - destruct t; db_proj;
      (split;
       [ intros _;
         first [ exists [a]; reflexivity | exists []; now rewrite app_nil_r ]
       | rewrite ?length_app; simpl; lia ]).
  - destruct t; db_proj;
      (split;
       [ intros E; first [ discriminate E | exists []; now rewrite app_nil_r ]
       | first [ lia | apply Nat.eq_le_incl; symmetry; apply length_map ] ]).
  - destruct t; db_proj;
      (split;
       [ intros E; first [ discriminate E | exists []; now rewrite app_nil_r ]
       | first [ lia | apply Nat.eq_le_incl; symmetry; apply length_map ] ]).
  - destruct t; db_proj;
      (split; [ intros _; exists []; now rewrite app_nil_r | lia ]).
Qed.

(** X18.  Profiles and circles are outside the reach of clients: no request
    of a session under row security creates, deletes or re-keys a profile
    (the ids of [user_profiles] stay the same, in the same order), and
    [judicial_circles] does not change at all. *)
Theorem profiles_and_circles_not_created_by_clients s q d d' :
  restricted s -> serve s q d = Ok d' ->
  map user_profiles.id (user_profiles d') = map user_profiles.id (user_profiles d)
  /\ judicial_circles d' = judicial_circles d.
Proof.
  intros H Hs.
  destruct (restricted_serve s q d d' H Hs)
    as [-> | [[c ->] | [[a ->] | [[hit [f [Hu [Hk ->]]]] | [[a [_ ->]] | [u ->]]]]]];
    try (split; reflexivity).
  db_proj. split; [|reflexivity].
  rewrite map_map. apply map_ext_in.
  intros r Hr. destruct (hit r) eqn:Hhit; [|reflexivity].
  specialize (Hu r Hhit). specialize (Hk r Hr Hhit).
  destruct (restricted_role s H) as [Hrole|Hrole].
  { rewrite anon_sees_nothing in Hu by assumption. discriminate. }
  rewrite own_profile_using in Hu by assumption.
  rewrite own_profile_check in Hk by assumption.
  apply sql_true_eq in Hu, Hk. congruence.
Qed.

(** ** References into [auth.users] *)

(** X28.  [created_by uuid NOT NULL REFERENCES auth.users(id)]: a case whose
    creator is not a user is refused with a foreign-key violation, although
    the insert policy lets it through and key, number and circle are in
    order.  The policy does not ask that [created_by] be the caller. *)
Theorem case_by_unknown_user_rejected d s c :
  consistent d -> rls_check Insert s d t_cases c = true ->
  ~ In (cases.id c) (map cases.id (cases d)) ->
  ~ In (cases.case_number c) (map cases.case_number (cases d)) ->
  In (cases.primary_circle_id c) (map judicial_circles.id (judicial_circles d)) ->
  ~ In (cases.created_by c) (auth_users d) ->
  exec s (INSERT t_cases c) d = Error foreign_key_violation.
Proof.
  intros Hc Hchk Hid Hnum Hfk Hby. rewrite exec_insert_plain by reflexivity.
  rewrite Hchk. unfold commit.
  rewrite violated_foreign_key; [reflexivity | now apply append_case_unique |].
  unfold foreign_keys. db_proj. do 8 right. left.
  destruct (all_in _ _) eqn:E; [|reflexivity]. exfalso.
  rewrite all_in_spec in E. apply Hby, E.
  rewrite map_app. apply in_or_app. right. now left.
Qed.

(** A new audit row with a fresh id keeps every key unique. *)
Lemma append_audit_unique d a :
  consistent d -> ~ In (audit_logs.id a) (map audit_logs.id (audit_logs d)) ->
  forallb (fun b => b)
          (unique_constraints (set_rows t_audit_logs (audit_logs d ++ [a]) d)) = true.
Proof.
  intros Hc Hfresh. destruct (consistent_checks d Hc) as [U _].
  rewrite forallb_forall in U. apply forallb_forall; intros b Hb.
  unfold unique_constraints in Hb. db_proj_in Hb. each_check Hb; try old_check U.
  rewrite map_app. simpl map. rewrite distinct_snoc by apply N.eqb_sym.
  rewrite fresh_not_mem by assumption. rewrite andb_true_r. old_check U.
Qed.

(** X29.  [user_id uuid REFERENCES auth.users(id)]: [log_audit_event]
    stamps the entry with [auth.uid()], so a call under a token whose
    subject is not a user fails with a foreign-key violation and records
    nothing. *)
Theorem audit_event_of_unknown_user_rejected s d act rt rid det u ts x :
  consistent d -> ~ In u (map audit_logs.id (audit_logs d)) ->
  auth_uid s = Some x -> ~ In x (auth_users d) ->
  log_audit_event s act rt rid det u ts d = Error foreign_key_violation.
Proof.
  intros Hc Hfresh Huid Hx. unfold log_audit_event.
  rewrite exec_insert_plain by reflexivity.
  rewrite owner_writes_all by reflexivity. unfold commit.
  rewrite violated_foreign_key; [reflexivity | now apply append_audit_unique |].
  unfold foreign_keys. db_proj. do 14 right. left.
  destruct (all_in _ _) eqn:E; [|reflexivity]. exfalso.
  rewrite all_in_spec in E. apply Hx, E. apply in_non_null.
  rewrite map_app. apply in_or_app. right. left. simpl. now rewrite Huid.
Qed.

(** X30.  [handle_new_user] returns [NEW] and inserts nothing: a sign-up
    adds the user and leaves every table of the migration as it was, so the
    new user has no profile. *)
Theorem sign_up_creates_no_profile s d NEW :
  consistent d -> ~ In NEW (auth_users d) ->
  serve s (Sign_up NEW) d = Ok (add_user NEW d) /\
  In NEW (auth_users (add_user NEW d)) /\
  (forall t, rows t (add_user NEW d) = rows t d) /\
  (forall p, In p (user_profiles (add_user NEW d)) -> user_profiles.id p <> NEW).
Proof.
  intros Hc Hnew.
  destruct (consistent_checks d Hc) as [U F]. rewrite forallb_forall in U, F.
  split; [|split; [|split]].
  - unfold serve, handle_new_user. apply commit_consistent.
    apply consistent_intro; apply forallb_forall; intros b Hb.
    + unfold unique_constraints in Hb. db_proj_in Hb. each_check Hb; try old_check U.
      rewrite distinct_snoc by apply N.eqb_sym.
      rewrite fresh_not_mem by assumption. rewrite andb_true_r. old_check U.
    + unfold foreign_keys in Hb. db_proj_in Hb.
      each_check Hb; try old_check F; apply all_in_more; old_check F.
  - simpl. apply in_or_app. right. now left.
  - intros t. now destruct t.
  - intros p Hp E. apply Hnew. rewrite <- E.
    assert (A : all_in (map user_profiles.id (user_profiles d)) (auth_users d) = true)
      by old_check F.
    rewrite all_in_spec in A. apply A. now apply in_map.
Qed.

(** ** Deleting as the owner: cascades and references *)

Lemma mem_In x l : mem x l = true <-> In x l.
Proof.
  unfold mem. rewrite existsb_exists. split.
  - intros [y [Hy E]]. apply N.eqb_eq in E. now subst.
  - intros H. exists x. split; [assumption | apply N.eqb_refl].
Qed.

Lemma existsb_map_filter {R K} (p : K -> bool) (key : R -> K) f l :
  existsb p (map key (filter f l)) = true -> existsb p (map key l) = true.
Proof.
  rewrite !existsb_exists. intros [k [Hk E]]. exists k. split; [|assumption].
  apply in_map_iff in Hk as [r [Er Hr]]. apply filter_In in Hr as [Hr _].
  apply in_map_iff. eauto.
Qed.

(** Dropping rows keeps a key unique. *)
Lemma distinct_filter {R K} (eqb : K -> K -> bool) (key : R -> K) f l :
  distinct eqb (map key l) = true -> distinct eqb (map key (filter f l)) = true.
Proof.
  induction l as [|x l IH]; simpl; [auto|].
  intros H. apply andb_true_iff in H as [Hx Hl].
  destruct (f x); simpl; [|auto].
  apply andb_true_iff. split; [|auto].
  apply negb_true_iff in Hx. apply negb_true_iff.
  destruct (existsb _ (map key (filter f l))) eqn:E; [|reflexivity].
  apply existsb_map_filter in E. congruence.
Qed.

(** Dropping child rows keeps their references valid. *)
Lemma all_in_filter {R} (key : R -> uuid) f l parents :
  all_in (map key l) parents = true ->
  all_in (map key (filter f l)) parents = true.
Proof.
  rewrite !all_in_spec. intros H k Hk. apply H.
  apply in_map_iff in Hk as [r [Er Hr]]. apply filter_In in Hr as [Hr _].
  apply in_map_iff. eauto.
Qed.

Lemma owner_delete_hits s d t where_ r :
  bypass_rls s = true ->
  where_ r && rls_using Delete s d t r && rls_using Select s d t r = where_ r.
Proof.
  intros H. unfold rls_using. rewrite H, orb_true_r. simpl.
  now rewrite !andb_true_r.
Qed.

Lemma policy_error_owner cs s t : bypass_rls s = true -> policy_error cs s t = None.
Proof.
  intros H. apply policy_error_exempt. unfold bypass_rls in H.
  destruct (current_user s); discriminate.
Qed.

Lemma all_in_non_null_filter {R} (key : R -> option uuid) f l parents :
  all_in (non_null (map key l)) parents = true ->
  all_in (non_null (map key (filter f l))) parents = true.
Proof.
  rewrite !all_in_spec. intros H k Hk. apply H.
  apply in_non_null in Hk. apply in_non_null.
  apply in_map_iff in Hk as [r [Er Hr]]. apply filter_In in Hr as [Hr _].
  apply in_map_iff. eauto.
Qed.

Section DeleteCases.
Variables (d : db) (where_ : cases.row -> bool).
Hypothesis Hc : consistent d.

(** A case id is among the deleted exactly when its row matches. *)
Lemma deleted_iff c :
  In c (cases d) -> In (cases.id c) (deleted_case_ids where_ d) <-> where_ c = true.
Proof.
  intros Hin. unfold deleted_case_ids. rewrite in_map_iff. split.
  - intros [c0 [E H0]]. apply filter_In in H0 as [H0 Hw].
    assert (c0 = c) as <-; [|assumption].
    apply (unique_key cases.id (cases d)); auto using pk_cases.
  - intros Hw. exists c. split; [reflexivity|]. now apply filter_In.
Qed.

(** A child row that names a case not deleted names a kept one. *)
Lemma child_of_kept_case k :
  In k (map cases.id (cases d)) -> mem k (deleted_case_ids where_ d) = false ->
  In k (map cases.id (filter (fun c => negb (where_ c)) (cases d))).
Proof.
  intros Hk Hm. apply in_map_iff in Hk as [c [E Hin]]. subst k.
  apply in_map_iff. exists c. split; [reflexivity|].
  apply filter_In. split; [assumption|].
  destruct (where_ c) eqn:Hw; [|reflexivity].
  apply deleted_iff in Hw; [|assumption]. apply mem_In in Hw. congruence.
Qed.

Lemma children_of_kept_cases {R} (key : R -> uuid) (l : list R) :
  all_in (map key l) (map cases.id (cases d)) = true ->
  all_in (map key (filter (fun x => negb (mem (key x) (deleted_case_ids where_ d))) l))
         (map cases.id (filter (fun c => negb (where_ c)) (cases d))) = true.
Proof.
  rewrite !all_in_spec. intros H k Hk.
  apply in_map_iff in Hk as [r [Er Hr]]. apply filter_In in Hr as [Hr Hm].
  subst k. apply child_of_kept_case.
  - apply H. now apply in_map.
  - now apply negb_true_iff.
Qed.

Lemma after_case_delete_consistent : consistent (after_case_delete where_ d).
Proof.
  destruct (consistent_checks d Hc) as [U F]. rewrite forallb_forall in U, F.
  apply consistent_intro; apply forallb_forall; intros b Hb.
  - unfold unique_constraints, after_case_delete, cascade in Hb. db_proj_in Hb.
    each_check Hb; try old_check U; apply distinct_filter; old_check U.
  - unfold foreign_keys, after_case_delete, cascade in Hb. db_proj_in Hb.
    each_check Hb; try old_check F;
      try (apply all_in_filter; old_check F);
      try (apply all_in_non_null_filter; old_check F).
    + apply (children_of_kept_cases case_circles.case_id). old_check F.
    + apply (children_of_kept_cases case_threads.case_id). old_check F.
    + assert (Hold : all_in (map case_messages.thread_id (case_messages d))
                            (map case_threads.id (case_threads d)) = true)
        by old_check F.
      rewrite all_in_spec in *. intros k Hk.
      apply in_map_iff in Hk as [m [Em Hm]]. apply filter_In in Hm as [Hm Hdead].
      subst k. apply negb_true_iff in Hdead.
      specialize (Hold _ (in_map case_messages.thread_id _ _ Hm)).
      apply in_map_iff in Hold as [t [Et Ht]].
      apply in_map_iff. exists t. split; [assumption|].
      apply filter_In. split; [assumption|].
      destruct (mem (case_threads.case_id t) (deleted_case_ids where_ d)) eqn:Hg;
        [|reflexivity].
      exfalso.
      assert (Hin : In (case_messages.thread_id m)
                       (map case_threads.id
                            (filter (fun x => mem (case_threads.case_id x)
                                                  (deleted_case_ids where_ d))
                                    (case_threads d)))).
      { rewrite <- Et. apply in_map. now apply filter_In. }
      apply mem_In in Hin. congruence.
    + apply (children_of_kept_cases case_documents.case_id). old_check F.
Qed.

(** What is left of a deleted case: nothing. *)
Lemma deleted_case_leaves_nothing c :
  In c (cases d) -> where_ c = true ->
  ~ In c (cases (after_case_delete where_ d)) /\
  (forall l, In l (case_circles (after_case_delete where_ d)) ->
             case_circles.case_id l <> cases.id c) /\
  (forall t, In t (case_threads (after_case_delete where_ d)) ->
             case_threads.case_id t <> cases.id c) /\
  (forall x, In x (case_documents (after_case_delete where_ d)) ->
             case_documents.case_id x <> cases.id c) /\
  (forall t m, In t (case_threads d) -> case_threads.case_id t = cases.id c ->
               In m (case_messages (after_case_delete where_ d)) ->
               case_messages.thread_id m <> case_threads.id t).
Proof.
  intros Hin Hw.
  assert (Hg : mem (cases.id c) (deleted_case_ids where_ d) = true).
  { apply mem_In. now apply deleted_iff. }
  unfold after_case_delete, cascade. db_proj.
  split; [|split; [|split; [|split]]].
  - intros H. apply filter_In in H as [_ H]. now rewrite Hw in H.
  - intros l H E. apply filter_In in H as [_ H]. now rewrite E, Hg in H.
  - intros t H E. apply filter_In in H as [_ H]. now rewrite E, Hg in H.
  - intros x H E. apply filter_In in H as [_ H]. now rewrite E, Hg in H.
  - intros t m Ht Et H E. apply filter_In in H as [_ H].
    apply negb_true_iff in H.
    assert (Hdead : In (case_messages.thread_id m)
                       (map case_threads.id
                            (filter (fun x => mem (case_threads.case_id x)
                                                  (deleted_case_ids where_ d))
                                    (case_threads d)))).
    { rewrite E. apply in_map. apply filter_In. split; [assumption|].
      now rewrite Et. }
    apply mem_In in Hdead. congruence.
Qed.

(** What is left of a case that is not deleted: all of it. *)
Lemma kept_case_keeps_all c :
  In c (cases d) -> where_ c = false ->
  In c (cases (after_case_delete where_ d)) /\
  (forall l, In l (case_circles d) -> case_circles.case_id l = cases.id c ->
             In l (case_circles (after_case_delete where_ d))) /\
  (forall t, In t (case_threads d) -> case_threads.case_id t = cases.id c ->
             In t (case_threads (after_case_delete where_ d))) /\
  (forall x, In x (case_documents d) -> case_documents.case_id x = cases.id c ->
             In x (case_documents (after_case_delete where_ d))) /\
  (forall t m, In t (case_threads d) -> case_threads.case_id t = cases.id c ->
               In m (case_messages d) ->
               case_messages.thread_id m = case_threads.id t ->
               In m (case_messages (after_case_delete where_ d))).
Proof.
  intros Hin Hw.
  assert (Hg : mem (cases.id c) (deleted_case_ids where_ d) = false).
  { destruct (mem _ _) eqn:E; [|reflexivity].
    apply mem_In, deleted_iff in E; [congruence | assumption]. }
  unfold after_case_delete, cascade. db_proj.
  split; [|split; [|split; [|split]]].
  - apply filter_In. split; [assumption|]. now rewrite Hw.
  - intros l H E. apply filter_In. split; [assumption|]. now rewrite E, Hg.
  - intros t H E. apply filter_In. split; [assumption|]. now rewrite E, Hg.
  - intros x H E. apply filter_In. split; [assumption|]. now rewrite E, Hg.
  - intros t m Ht Et Hm E. apply filter_In. split; [assumption|].
    apply negb_true_iff.
    match goal with |- ?b = false => destruct b eqn:Hdead end; [|reflexivity].
    exfalso.
    apply mem_In, in_map_iff in Hdead as [t0 [E0 H0]].
    apply filter_In in H0 as [H0 Hg0].
    assert (t0 = t) as ->.
    { apply (unique_key case_threads.id (case_threads d));
        auto using pk_case_threads. congruence. }
    rewrite Et in Hg0. congruence.
Qed.
End DeleteCases.

(** X19.  [ON DELETE CASCADE]: when the owner deletes cases, the statement
    succeeds and takes along every link, thread and document of a deleted
    case and every message of its threads, so that no reference is left
    dangling; a case that is not deleted keeps all of its links, threads,
    documents and messages. *)
Theorem case_delete_cascades d s where_ :
  consistent d -> bypass_rls s = true ->
  let d' := after_case_delete where_ d in
  exec s (DELETE t_cases where_) d = Ok d' /\
  (forall c, In c (cases d) -> where_ c = true ->
     ~ In c (cases d') /\
     (forall l, In l (case_circles d') -> case_circles.case_id l <> cases.id c) /\
     (forall t, In t (case_threads d') -> case_threads.case_id t <> cases.id c) /\
     (forall x, In x (case_documents d') -> case_documents.case_id x <> cases.id c) /\
     (forall t m, In t (case_threads d) -> case_threads.case_id t = cases.id c ->
                  In m (case_messages d') ->
                  case_messages.thread_id m <> case_threads.id t)) /\
  (forall c, In c (cases d) -> where_ c = false ->
     In c (cases d') /\
     (forall l, In l (case_circles d) -> case_circles.case_id l = cases.id c ->
                In l (case_circles d')) /\
     (forall t, In t (case_threads d) -> case_threads.case_id t = cases.id c ->
                In t (case_threads d')) /\
     (forall x, In x (case_documents d) -> case_documents.case_id x = cases.id c ->
                In x (case_documents d')) /\
     (forall t m, In t (case_threads d) -> case_threads.case_id t = cases.id c ->
                  In m (case_messages d) ->
                  case_messages.thread_id m = case_threads.id t ->
                  In m (case_messages d'))).
Proof.
  intros Hc Hb d'. split; [|split].
  - unfold exec. rewrite policy_error_owner by assumption. unfold delete_rows.
    rewrite (filter_ext _ where_) by (intros r; now apply owner_delete_hits).
    rewrite (filter_ext (fun r => negb (_ && _ && _)) (fun c => negb (where_ c)))
      by (intros r; now rewrite owner_delete_hits).
    apply commit_consistent. now apply after_case_delete_consistent.
  - intros c. now apply deleted_case_leaves_nothing.
  - intros c. now apply kept_case_keeps_all.
Qed.

(** X20.  A circle in use cannot be deleted: [primary_circle_id] references
    [judicial_circles] without a cascade, so deleting a circle that is the
    primary circle of a stored case fails with a foreign-key violation, for
    the owner too. *)
Theorem circle_of_a_case_cannot_be_deleted d s where_ z c :
  consistent d -> bypass_rls s = true ->
  In z (judicial_circles d) -> where_ z = true ->
  In c (cases d) -> cases.primary_circle_id c = judicial_circles.id z ->
  exec s (DELETE t_judicial_circles where_) d = Error foreign_key_violation.
Proof.
  intros Hc Hb Hz Hw Hin Eprim. unfold exec.
  rewrite policy_error_owner by assumption. unfold delete_rows.
  rewrite (filter_ext (fun r => negb (_ && _ && _)) (fun r => negb (where_ r)))
    by (intros r; now rewrite owner_delete_hits).
  unfold cascade, commit. db_proj.
  destruct (consistent_checks d Hc) as [U F]. rewrite forallb_forall in U.
  rewrite violated_foreign_key; [reflexivity| |].
  - apply forallb_forall; intros b Hb'.
    unfold unique_constraints in Hb'. db_proj_in Hb'.
    each_check Hb'; try old_check U.
    apply distinct_filter. old_check U.
  - unfold foreign_keys. db_proj. right. left.
    destruct (all_in _ _) eqn:E; [|reflexivity]. exfalso.
    rewrite all_in_spec in E.
    specialize (E _ (in_map cases.primary_circle_id _ _ Hin)).
    apply in_map_iff in E as [z' [Ez Hz']]. apply filter_In in Hz' as [Hz' Hw'].
    assert (z' = z) as ->.
    { apply (unique_key judicial_circles.id (judicial_circles d)); auto.
      - old_check U.
      - congruence. }
    now rewrite Hw in Hw'.
Qed.
(** * Properties of the application shell *)

Section AppProperties.
Import App.
Local Open Scope string_scope.

Ltac by_tab st :=
  unfold renderContent; cbv zeta;
  repeat match goal with
         | |- context [String.eqb (activeTab st) ?x] =>
             destruct (String.eqb_spec (activeTab st) x); cbv iota
         end.

Ltac by_selection :=
  unfold if_selected;
  repeat match goal with
         | |- context [match ?v with Some _ => _ | None => _ end] =>
             destruct v; cbv iota beta
         | |- context [String.eqb ?v ""] =>
             destruct (String.eqb_spec v ""); cbv iota
         end.

(** X21.  A detail view is rendered only on its own tab and only for the
    current selection, which is then neither [null] nor the empty string;
    the collaboration button of the circle view is bound to the circle
    shown. *)
Theorem detail_view_shows_current_selection st :
  match renderContent st with
  | CaseDetails v _ =>
      activeTab st = "case-details" /\ selectedCaseId st = Some v /\ v <> ""
  | ThreadView v _ =>
      activeTab st = "thread-view" /\ selectedThreadId st = Some v /\ v <> ""
  | DocumentViewer v _ =>
      activeTab st = "document-viewer" /\ selectedDocumentId st = Some v /\ v <> ""
  | CircleDetails v _ m =>
      activeTab st = "circle-details" /\ selectedCircleId st = Some v /\ v <> ""
      /\ m = handleManageCollaboration v
  | CollaborationManager v _ =>
      activeTab st = "collaboration-manager" /\ selectedCircleId st = Some v
      /\ v <> ""
  | _ => True
  end.
Proof.
  by_tab st; try exact I; by_selection; try exact I; auto.
Qed.

(** X22.  Fallbacks of [renderContent]: on a detail tab without a selection
    ([null] or the empty string) the list of that kind is rendered instead,
    and a tab name it has no case for renders the dashboard. *)
Theorem render_fallbacks st :
  (forall k, activeTab st = detail_tab k ->
             selection k st = None \/ selection k st = Some "" ->
             renderContent st = list_for k) /\
  (activeTab st = "collaboration-manager" ->
   selectedCircleId st = None \/ selectedCircleId st = Some "" ->
   renderContent st = circles_list) /\
  (~ In (activeTab st) known_tabs -> renderContent st = Dashboard (mockProfile st)).
Proof.
  split; [|split].
  - intros k Htab Hsel. unfold renderContent. cbv zeta. rewrite Htab.
    destruct k; simpl in Hsel |- *; destruct Hsel as [-> | ->]; reflexivity.
  - intros Htab Hsel. unfold renderContent. cbv zeta. rewrite Htab.
    destruct Hsel as [-> | ->]; reflexivity.
  - intros Hun. by_tab st; try reflexivity;
      exfalso; apply Hun;
      match goal with E : activeTab st = _ |- _ => rewrite E end;
      unfold known_tabs; simpl; auto 20.
Qed.

(** X23.  Selecting, creating or managing opens the detail view of the very
    item named, with the back button of its kind, whatever the state was;
    with an empty id the list is shown instead. *)
Theorem select_opens_detail st v :
  v <> "" ->
  renderContent (dispatch (handleCaseSelect v) st) = CaseDetails v handleBackToCases /\
  renderContent (dispatch (handleCaseCreated v) st) = CaseDetails v handleBackToCases /\
  renderContent (dispatch (handleThreadSelect v) st) = ThreadView v handleBackToThreads /\
  renderContent (dispatch (handleThreadCreated v) st) = ThreadView v handleBackToThreads /\
  renderContent (dispatch (handleDocumentSelect v) st)
  = DocumentViewer v handleBackToDocuments /\
  renderContent (dispatch (handleDocumentUploaded v) st)
  = DocumentViewer v handleBackToDocuments /\
  renderContent (dispatch (handleCircleSelect v) st)
  = CircleDetails v handleBackToCircles (handleManageCollaboration v) /\
  renderContent (dispatch (handleCircleCreated v) st)
  = CircleDetails v handleBackToCircles (handleManageCollaboration v) /\
  renderContent (dispatch (handleManageCollaboration v) st)
  = CollaborationManager v handleBackToCircles.
Proof.
  intros Hv. apply String.eqb_neq in Hv.
  repeat split; unfold renderContent, dispatch; simpl; now rewrite Hv.
Qed.

(** X24.  The back button of every view leads to the list of its kind, and
    it clears the selection: going to the detail tab of that kind right
    after shows the list again. *)
Theorem back_returns_to_list st b :
  onBack_of (renderContent st) = Some b ->
  renderContent (dispatch b st) = list_of (renderContent st) /\
  exists k, writes b = Some k /\
            selection k (dispatch b st) = None /\
            renderContent (dispatch (setActiveTab (detail_tab k)) (dispatch b st))
            = list_of (renderContent st).
Proof.
  by_tab st; try discriminate; by_selection; simpl; try discriminate;
    intros E; injection E as <-; (split; [reflexivity|]);
    first [ exists Case; repeat split; reflexivity
          | exists Thread; repeat split; reflexivity
          | exists Document; repeat split; reflexivity
          | exists Circle; repeat split; reflexivity ].
Qed.

Lemma dispatch_keeps_selection a st k :
  writes a <> Some k -> selection k (dispatch a st) = selection k st.
Proof.
  intros H. destruct a, k; simpl in *; try reflexivity; congruence.
Qed.

(** X25.  A selection is changed only by the handlers of its own kind: it
    survives any sequence of other handler calls, so the item selected
    before is the one shown when its detail tab is opened again. *)
Theorem selection_survives_other_handlers k acts st v :
  (forall a, In a acts -> writes a <> Some k) ->
  selection k st = Some v -> v <> "" ->
  selection k (run acts st) = Some v /\
  shown_id (renderContent (dispatch (setActiveTab (detail_tab k)) (run acts st)))
  = Some v.
Proof.
  intros Hacts Hsel Hv.
  assert (Hkeep : selection k (run acts st) = Some v).
  { revert st Hsel. unfold run. induction acts as [|a acts IH]; intros st Hsel.
    - assumption.
    - simpl. apply IH.
      + intros a' Ha'. apply Hacts. now right.
      + rewrite dispatch_keeps_selection; [assumption|]. apply Hacts. now left. }
  split; [assumption|].
  apply String.eqb_neq in Hv.
  destruct k; simpl in Hkeep; unfold renderContent; simpl;
    rewrite Hkeep; simpl; now rewrite Hv.
Qed.

(** X26.  Success messages: a handler call shows exactly one when it saves
    the profile or reports a created case, thread, document or circle, and
    none otherwise, and never removes an earlier one; only [updateProfile]
    changes the profile. *)
Theorem one_success_message_per_save acts st :
  List.length (showSuccess_calls (run acts st))
  = List.length (showSuccess_calls st) + List.length (filter announces acts) /\
  (exists l, showSuccess_calls (run acts st) = (showSuccess_calls st ++ l)%list) /\
  ((forall a, In a acts -> forall u, a <> updateProfile u) ->
   mockProfile (run acts st) = mockProfile st).
Proof.
  unfold run. revert st. induction acts as [|a acts IH]; intros st.
  - simpl. repeat split; [lia | exists []; now rewrite app_nil_r].
  - simpl fold_left. destruct (IH (dispatch a st)) as [Hlen [[l Hl] Hprof]].
    split; [|split].
    + rewrite Hlen. simpl filter.
      destruct a; simpl; rewrite ?length_app; simpl; lia.
    + rewrite Hl.
      destruct a; simpl; rewrite <- ?app_assoc; eauto.
    + intros Hno. rewrite Hprof.
      * destruct a; simpl; try reflexivity.
        exfalso.
        exact (Hno (updateProfile updates) (or_introl eq_refl) updates eq_refl).
      * intros a' Ha'. apply Hno. now right.
Qed.
End AppProperties.

(** * The further properties on the sample data *)

Section MoreScenarios.
Import Sample Fixtures.
Local Open Scope N_scope.
Local Open Scope string_scope.

Lemma circle_view_iff_home_witness :
  rls_using Select (as_user clerk_B) shared t_judicial_circles
            (circle civil "civil-1") = true
  <-> user_profiles.circle_id clerk_B = Some civil.
Proof.
  apply (circle_view_iff_home shared (as_user clerk_B) clerk_B (circle civil "civil-1")).
  - reflexivity.
  - split; reflexivity.
  - simpl. tauto.
Defined.

Lemma case_update_iff_primary_judge_or_clerk_witness :
  rls_using Update (as_user judge_A) shared t_cases case_1 = true
  <-> In (user_profiles.role judge_A) [judge; clerk]
      /\ user_profiles.circle_id judge_A = Some (cases.primary_circle_id case_1).
Proof.
  apply (case_update_iff_primary_judge_or_clerk shared (as_user judge_A) judge_A case_1).
  - reflexivity.
  - split; reflexivity.
  - simpl. tauto.
Defined.

Lemma case_update_cannot_change_primary_circle_witness :
  exec (as_user judge_A) (UPDATE_SET t_cases to_civil) shared
  = Error insufficient_privilege /\
  forall where_ set', exec (as_user judge_A) (UPDATE t_cases where_ set') shared
                      = Error (infinite_recursion t_case_circles).
Proof.
  apply (case_update_cannot_change_primary_circle
           shared (as_user judge_A) case_1 to_civil).
  - reflexivity.
  - reflexivity.
  - simpl. tauto.
  - reflexivity.
  - intros H. discriminate H.
Defined.

Lemma link_view_by_role_witness :
  query (as_user clerk_B) t_case_circles shared
  = Error (infinite_recursion t_case_circles) /\
  (restricted (as_user clerk_B) ->
   forall st d', exec (as_user clerk_B) st shared = Ok d' ->
                 case_circles d' = case_circles shared).
Proof.
  apply (link_view_by_role shared (as_user clerk_B)).
Defined.

Lemma anon_reaches_nothing_witness :
  (forall t, select_from anonymous t shared = []) /\
  (forall t r, exec anonymous (INSERT t r) shared = Error insufficient_privilege) /\
  (forall st d', exec anonymous st shared = Ok d' -> d' = shared).
Proof.
  apply (anon_reaches_nothing shared anonymous). reflexivity.
Defined.

Lemma profile_self_update_any_role_and_circle_witness :
  exists d', exec (as_user trainee_C)
               (UPDATE t_user_profiles
                  (fun r => N.eqb (user_profiles.id r) (user_profiles.id trainee_C))
                  (fun _ => trainee_C_promoted)) unshared = Ok d'
             /\ In trainee_C_promoted (user_profiles d').
Proof.
  eexists.
  apply (profile_self_update_any_role_and_circle
           unshared (as_user trainee_C) trainee_C trainee_C_promoted).
  - reflexivity.
  - split; reflexivity.
  - simpl. tauto.
  - reflexivity.
  - reflexivity.
  - intros k E. injection E as <-. simpl. tauto.
Defined.

Lemma profile_select_returns_own_row_witness :
  select_from (as_user clerk_B) t_user_profiles shared = [clerk_B].
Proof.
  apply (profile_select_returns_own_row shared (as_user clerk_B) clerk_B).
  - reflexivity.
  - split; reflexivity.
  - simpl. tauto.
Defined.

Lemma profile_update_only_own_witness :
  let d' := state_after unshared (exec (as_user trainee_C) promote_everyone unshared) in
  map user_profiles.role (user_profiles d') = [judge; clerk; judge; judge; judge] /\
  (forall q, In q (user_profiles unshared) ->
             auth_uid (as_user trainee_C) <> Some (user_profiles.id q) ->
             In q (user_profiles d')) /\
  (forall r, In r (user_profiles d') ->
             In r (user_profiles unshared)
             \/ auth_uid (as_user trainee_C) = Some (user_profiles.id r)).
Proof.
  intros d'. split; [reflexivity|].
  apply (profile_update_only_own unshared (as_user trainee_C)
           (fun _ => true)
           (fun r => profile (user_profiles.id r) judge (user_profiles.circle_id r)
                             (user_profiles.employee_id r)) d').
  - reflexivity.
  - reflexivity.
Defined.

Lemma self_assigned_role_and_circle_take_effect_witness :
  let d' := state_after unshared
              (exec (as_user trainee_C)
                 (UPDATE t_user_profiles
                    (fun r => N.eqb (user_profiles.id r) (user_profiles.id trainee_C))
                    (fun _ => trainee_C_promoted)) unshared) in
  query (as_user trainee_C) t_audit_logs unshared = Ok [] /\
  rls_using Update (as_user trainee_C) unshared t_cases case_1 = false /\
  (user_profiles.role trainee_C_promoted = judge ->
   query (as_user trainee_C) t_audit_logs d' = Ok (audit_logs d')) /\
  (forall c, user_profiles.circle_id trainee_C_promoted
             = Some (cases.primary_circle_id c) ->
             In (user_profiles.role trainee_C_promoted) [judge; clerk] ->
             rls_using Update (as_user trainee_C) d' t_cases c = true).
Proof.
  intros d'. split; [reflexivity|]. split; [reflexivity|].
  apply (self_assigned_role_and_circle_take_effect
           unshared (as_user trainee_C) trainee_C trainee_C_promoted).
  - reflexivity.
  - split; reflexivity.
  - simpl. tauto.
  - reflexivity.
  - reflexivity.
  - intros k E. injection E as <-. simpl. tauto.
Defined.

Lemma case_creation_not_tied_to_home_circle_witness :
  exec (as_user clerk_B) (INSERT t_cases case_3) unshared
  = Ok (set_rows t_cases (cases unshared ++ [case_3]) unshared) /\
  (user_profiles.circle_id clerk_B <> Some (cases.primary_circle_id case_3) ->
   rls_using Update (as_user clerk_B)
             (set_rows t_cases (cases unshared ++ [case_3]) unshared)
             t_cases case_3 = false).
Proof.
  apply (case_creation_not_tied_to_home_circle unshared (as_user clerk_B) clerk_B case_3).
  - reflexivity.
  - split; reflexivity.
  - simpl. tauto.
  - simpl. tauto.
  - simpl. intros [H|[]]. discriminate H.
  - simpl. intros [H|[]]. discriminate H.
  - simpl. tauto.
  - simpl. tauto.
  - intros j H. discriminate H.
Defined.

Lemma insert_existing_id_rejected_witness :
  exec (as_user judge_A) (INSERT t_cases case_same_id) shared = Error unique_violation.
Proof.
  apply (insert_existing_id_rejected shared (as_user judge_A) t_cases case_same_id).
  - reflexivity.
  - reflexivity.
  - simpl. tauto.
Defined.

Lemma duplicate_case_number_rejected_witness :
  exec (as_user judge_A) (INSERT t_cases case_same_number) shared
  = Error unique_violation.
Proof.
  apply (duplicate_case_number_rejected shared (as_user judge_A) case_same_number).
  - reflexivity.
  - simpl. tauto.
Defined.

Lemma case_with_unknown_circle_rejected_witness :
  exec (as_user judge_A) (INSERT t_cases case_nowhere) shared
  = Error foreign_key_violation.
Proof.
  apply (case_with_unknown_circle_rejected shared (as_user judge_A) case_nowhere).
  - reflexivity.
  - reflexivity.
  - simpl. intros [H|[]]. discriminate H.
  - simpl. intros [H|[]]. discriminate H.
  - simpl. intros [H|[H|[H|[H|[]]]]]; discriminate H.
Defined.

Lemma tables_only_grow_witness :
  let d' := state_after shared (exec (as_user clerk_B) (INSERT t_cases case_3) shared) in
  List.length (cases d') = 2%nat /\
  forall t, (update_policy t = false -> exists l, rows t d' = (rows t shared ++ l)%list) /\
            (List.length (rows t shared) <= List.length (rows t d'))%nat.
Proof.
  intros d'. split; [reflexivity|].
  apply (tables_only_grow (as_user clerk_B) (Statement (INSERT t_cases case_3))
                          shared d').
  - reflexivity.
  - reflexivity.
Defined.

Lemma profiles_and_circles_not_created_by_clients_witness :
  let d' := state_after unshared (exec (as_user trainee_C) promote_everyone unshared) in
  map user_profiles.id (user_profiles d') = map user_profiles.id (user_profiles unshared)
  /\ judicial_circles d' = judicial_circles unshared.
Proof.
  intros d'.
  apply (profiles_and_circles_not_created_by_clients
           (as_user trainee_C) (Statement promote_everyone) unshared d').
  - reflexivity.
  - reflexivity.
Defined.

Lemma case_delete_cascades_witness :
  exec owner (DELETE t_cases is_case_1) shared
  = Ok (after_case_delete is_case_1 shared) /\
  cases (after_case_delete is_case_1 shared) = [] /\
  case_circles (after_case_delete is_case_1 shared) = [] /\
  case_messages (after_case_delete is_case_1 shared) = [].
Proof.
  split; [|repeat split].
  apply (case_delete_cascades shared owner is_case_1).
  - reflexivity.
  - reflexivity.
Defined.

Lemma circle_of_a_case_cannot_be_deleted_witness :
  exec owner (DELETE t_judicial_circles is_criminal) shared
  = Error foreign_key_violation.
Proof.
  apply (circle_of_a_case_cannot_be_deleted
           shared owner is_criminal (circle criminal "criminal-1") case_1).
  - reflexivity.
  - reflexivity.
  - simpl. tauto.
  - reflexivity.
  - simpl. tauto.
  - reflexivity.
Defined.

Lemma case_by_unknown_user_rejected_witness :
  exec (as_user judge_A) (INSERT t_cases case_by_nobody) shared
  = Error foreign_key_violation.
Proof.
  apply (case_by_unknown_user_rejected shared (as_user judge_A) case_by_nobody).
  - reflexivity.
  - reflexivity.
  - simpl. intros [H|[]]. discriminate H.
  - simpl. intros [H|[]]. discriminate H.
  - simpl. tauto.
  - simpl. intros [H|[H|[H|[H|[H|[H|[]]]]]]]; discriminate H.
Defined.

Lemma audit_event_of_unknown_user_rejected_witness :
  log_audit_event deleted_user "view" "case" (Some 201) "{}" 702 9 shared
  = Error foreign_key_violation.
Proof.
  apply (audit_event_of_unknown_user_rejected
           deleted_user shared "view" "case" (Some 201) "{}" 702 9 998).
  - reflexivity.
  - simpl. intros [H|[]]. discriminate H.
  - reflexivity.
  - simpl. intros [H|[H|[H|[H|[H|[H|[]]]]]]]; discriminate H.
Defined.

Lemma sign_up_creates_no_profile_witness :
  serve anonymous (Sign_up 106) shared = Ok (add_user 106 shared) /\
  In 106 (auth_users (add_user 106 shared)) /\
  (forall t, rows t (add_user 106 shared) = rows t shared) /\
  (forall p, In p (user_profiles (add_user 106 shared)) -> user_profiles.id p <> 106).
Proof.
  apply (sign_up_creates_no_profile anonymous shared 106).
  - reflexivity.
  - simpl. intros [H|[H|[H|[H|[H|[H|[]]]]]]]; discriminate H.
Defined.

Lemma select_opens_detail_witness :
  App.renderContent (App.dispatch (App.handleCircleSelect "circle-2")
                                  (App.initial "t0" "t0"))
  = App.CircleDetails "circle-2" App.handleBackToCircles
                      (App.handleManageCollaboration "circle-2").
Proof.
  destruct (select_opens_detail (App.initial "t0" "t0") "circle-2")
    as [_ [_ [_ [_ [_ [_ [H _]]]]]]].
  - intros H. discriminate H.
  - exact H.
Defined.

Lemma back_returns_to_list_witness :
  App.renderContent (App.dispatch App.handleBackToCases case_open)
  = App.list_of (App.renderContent case_open) /\
  exists k, App.writes App.handleBackToCases = Some k /\
            App.selection k (App.dispatch App.handleBackToCases case_open) = None /\
            App.renderContent
              (App.dispatch (App.setActiveTab (App.detail_tab k))
                            (App.dispatch App.handleBackToCases case_open))
            = App.list_of (App.renderContent case_open).
Proof.
  apply (back_returns_to_list case_open App.handleBackToCases). reflexivity.
Defined.

Lemma selection_survives_other_handlers_witness :
  App.selection App.Case (App.run wander case_open) = Some "case-7" /\
  App.shown_id
    (App.renderContent
       (App.dispatch (App.setActiveTab (App.detail_tab App.Case))
                     (App.run wander case_open)))
  = Some "case-7".
Proof.
  apply (selection_survives_other_handlers App.Case wander case_open "case-7").
  - intros a [<-|[<-|[<-|[<-|[]]]]]; discriminate.
  - reflexivity.
  - intros H. discriminate H.
Defined.
End MoreScenarios.
